(** * streamrip: stream acquisition and decryption engine

    A shallow embedding of [streamrip/utils.py] (and of the sibling
    [get_quality_id] of [streamrip/metadata.py]) together with the
    properties the specification states about it.

    Conventions of the embedding:
    - a Python [int] is a [Z]; [Optional[int]] is [option Z];
    - a Python [str] is a [string] (the UTF-8 bytes of the text); the one
      place where code points are built with [chr] uses a list of code
      points and an explicit UTF-8 encoder;
    - a Python [bytes] is a [list byte];
    - a [dict] is a [gmap];
    - a call that can raise returns a [result]; code that touches the file
      system threads an explicit store from paths to contents, and what
      the operating system refuses a download (the open, a write, the
      removal) is a parameter of it. *)

From Stdlib Require Import ZArith List Strings.String Strings.Ascii Strings.Byte Lia.
From stdpp Require Import gmap strings list fin_maps pretty.

Open Scope Z_scope.

(* ===================================================================== *)
(** * Part I: the program                                                 *)
(* ===================================================================== *)

(** ** Python values and exceptions *)

(** The key of a failed dictionary lookup. *)
Inductive dict_key :=
| KStr (s : string)
| KInt (n : Z).

(** What [requests.Response.json] returns. *)
#[local] Unset Elimination Schemes.
Inductive json :=
| JNull
| JBool (b : bool)
| JNum (n : Z)
| JStr (s : string)
| JArr (items : list json)
| JObj (fields : list (string * json)).
#[local] Set Elimination Schemes.

(** The exceptions the modelled code raises or lets through.  Every one of
    them derives from [Exception] except [KeyboardInterrupt], which derives
    from [BaseException] only. *)
Inductive exn :=
| KeyError (key : dict_key)
| TypeError (msg : string)
| ValueError (msg : string)
| OverflowError (msg : string)
| AssertionError
| GenericException (msg : string)
| InvalidQuality (quality_id : Z)
| InvalidSourceError (source : string)
| NonStreamable (message : option json)
| JSONDecodeError
| Base64Error
| UnicodeEncodeError
| OSError (msg : string)
| FileNotFoundError (path : string)
| ConnectionError (msg : string)
| ClickAbort
| KeyboardInterrupt.

(** [isinstance(e, Exception)]. *)
Definition is_Exception (e : exn) : bool :=
  match e with
  | KeyboardInterrupt => false
  | _ => true
  end.

(** [isinstance(e, OSError)]. *)
Definition is_OSError (e : exn) : bool :=
  match e with
  | OSError _ | FileNotFoundError _ | ConnectionError _ => true
  | _ => false
  end.

Inductive result (A : Type) :=
| Ok (a : A)
| Raise (e : exn).
Arguments Ok {A} a.
Arguments Raise {A} e.

#[global] Instance result_ret : MRet result := fun A a => Ok a.
#[global] Instance result_bind : MBind result := fun A B f m =>
  match m with
  | Ok a => f a
  | Raise e => Raise e
  end.

(** ** Transport and file system *)

(** The answer of [session.get(url, allow_redirects=True, stream=True, ...)]
    as far as the code looks at it. *)
Record Response := {
  (** [r.url], the address after redirects *)
  resp_url : string;
  (** the Content-Length header read with [int], when the header is there *)
  content_length : option Z;
  (** [r.json()]; [None] when the body is not JSON ([JSONDecodeError]) *)
  resp_json : option json;
  (** the bytes of the body *)
  resp_body : list byte;
  (** [Some (k, e)]: the connection raises [e] once [k] bytes are delivered *)
  resp_fault : option (nat * exn)
}.

(** A generator that is run to its end: the items it yields and, when it
    stops on an exception, that exception. *)
Definition gen (A : Type) : Type := list A * option exn.

Fixpoint chunks_fuel {A} (fuel chunk_size : nat) (data : list A) : list (list A) :=
  match fuel with
  | O => []
  | S fuel' =>
      match data with
      | [] => []
      | _ => take chunk_size data :: chunks_fuel fuel' chunk_size (drop chunk_size data)
      end
  end.

(** Consecutive pieces of [chunk_size] items, the last one possibly shorter. *)
Definition chunks {A} (chunk_size : nat) (data : list A) : list (list A) :=
  chunks_fuel (length data) chunk_size data.

(** [r.iter_content(chunk_size)] *)
Definition iter_content (r : Response) (chunk_size : nat) : gen (list byte) :=
  match resp_fault r with
  | None => (chunks chunk_size (resp_body r), None)
  | Some (k, e) => (chunks chunk_size (take k (resp_body r)), Some e)
  end.

(** [s.endswith(suffix)] *)
Definition endswith (s suffix : string) : bool :=
  let n := String.length s in
  let k := String.length suffix in
  (k <=? n)%nat && String.eqb (String.substring (n - k) k s) suffix.

(** The value of [key] in a parsed JSON object; as in [json.loads], the
    last binding of a repeated name is the one kept. *)
Definition json_field (key : string) (fields : list (string * json)) : option json :=
  fold_left (fun acc kv => if String.eqb (fst kv) key then Some (snd kv) else acc)
            fields None.

(** [j[key]] for a string [key]. *)
Definition json_subscript (j : json) (key : string) : result json :=
  match j with
  | JObj fields =>
      match json_field key fields with
      | Some v => Ok v
      | None => Raise (KeyError (KStr key))
      end
  | JArr _ => Raise (TypeError "list indices must be integers or slices, not str")
  | JStr _ => Raise (TypeError "string indices must be integers")
  | _ => Raise (TypeError "object is not subscriptable")
  end.

(** The files that exist, by path, with their contents. *)
Abbreviation FS := (gmap string (list byte)).

(** [open(path, "wb")] that goes through: the file is created, or emptied
    when it exists. *)
Definition open_wb (path : string) (fs : FS) : FS := <[path := []]> fs.

(** [file.write(data)] that goes through, on the file opened at [path]:
    the data is stored whole and its length is returned. *)
Definition file_write (path : string) (data : list byte) (fs : FS) : FS * Z :=
  (<[path := default [] (fs !! path) ++ data]> fs, Z.of_nat (length data)).

(** What the operating system refuses a program that writes a file:
    the exception with which [open(path, "wb")] fails; the exception with
    which the write number [i] (counted from 0) to the opened file fails,
    with the number of bytes of its data that are stored all the same; and
    the exception with which [os.remove(path)] fails on a file that
    exists.  [None] stands for an operation that goes through. *)
Record Disk := {
  open_error : string -> option exn;
  write_error : nat -> option (nat * exn);
  remove_error : string -> option exn
}.

(** [os.remove(path)] *)
Definition os_remove (disk : Disk) (path : string) (fs : FS) : FS * result unit :=
  match fs !! path with
  | Some _ =>
      match remove_error disk path with
      | Some e => (fs, Raise e)
      | None => (delete path fs, Ok tt)
      end
  | None => (fs, Raise (FileNotFoundError path))
  end.

(** The identifier handed to [DownloadStream]: [None], a [str] or an [int]. *)
Inductive item_id_arg :=
| IdNone
| IdStr (s : string)
| IdInt (n : Z).

(** ** Bytes *)

Definition Z_of_byte (b : byte) : Z := Z.of_N (Byte.to_N b).

Definition byte_of_Z (z : Z) : byte :=
  default x00 (Byte.of_N (Z.to_N (z mod 256))).

Definition byte_xor (a b : byte) : byte :=
  byte_of_Z (Z.lxor (Z_of_byte a) (Z_of_byte b)).

(** Bytewise exclusive or, as long as the shorter argument. *)
Definition xor_bytes (a b : list byte) : list byte := zip_with byte_xor a b.

(** [n] bytes of [z], least significant first. *)
Fixpoint le_bytes (n : nat) (z : Z) : list Z :=
  match n with
  | O => []
  | S n' => z mod 256 :: le_bytes n' (z / 256)
  end.

(** [n] bytes of [z], most significant first. *)
Definition be_bytes (n : nat) (z : Z) : list byte :=
  map byte_of_Z (rev (le_bytes n z)).

(** [ord(c)] *)
Definition ord (c : ascii) : Z := Z.of_N (N_of_ascii c).

(** [chr(x)], a code point. *)
Definition chr (x : Z) : result Z :=
  if (0 <=? x) && (x <? 0x110000) then Ok x
  else Raise (ValueError "chr() arg not in range(0x110000)").

Definition utf8_encode_char (cp : Z) : result (list byte) :=
  if cp <? 0x80 then Ok [byte_of_Z cp]
  else if cp <? 0x800 then
    Ok [byte_of_Z (0xC0 + cp / 64); byte_of_Z (0x80 + cp mod 64)]
  else if (0xD800 <=? cp) && (cp <=? 0xDFFF) then Raise UnicodeEncodeError
  else if cp <? 0x10000 then
    Ok [byte_of_Z (0xE0 + cp / 4096); byte_of_Z (0x80 + (cp / 64) mod 64);
        byte_of_Z (0x80 + cp mod 64)]
  else
    Ok [byte_of_Z (0xF0 + cp / 262144); byte_of_Z (0x80 + (cp / 4096) mod 64);
        byte_of_Z (0x80 + (cp / 64) mod 64); byte_of_Z (0x80 + cp mod 64)].

(** [s.encode()] of a text given by its code points. *)
Fixpoint utf8_encode (cps : list Z) : result (list byte) :=
  match cps with
  | [] => Ok []
  | cp :: rest =>
      bs ← utf8_encode_char cp;
      bs' ← utf8_encode rest;
      Ok (bs ++ bs')
  end.

(** [f] on every item, in order, up to the first failure. *)
Fixpoint map_result {A B} (f : A -> result B) (l : list A) : result (list B) :=
  match l with
  | [] => Ok []
  | x :: rest =>
      y ← f x;
      ys ← map_result f rest;
      Ok (y :: ys)
  end.

(** A generator expression over a generator: the items of [g] through [f];
    the first failure of [f] ends the iteration with that exception. *)
Fixpoint gen_map_items {A B} (f : A -> result B) (items : list A)
    (stop : option exn) : gen B :=
  match items with
  | [] => ([], stop)
  | x :: rest =>
      match f x with
      | Ok y => let '(ys, e) := gen_map_items f rest stop in (y :: ys, e)
      | Raise e => ([], Some e)
      end
  end.

Definition gen_map {A B} (f : A -> result B) (g : gen A) : gen B :=
  gen_map_items f (fst g) (snd g).

(** ** hashlib: MD5 (RFC 1321) on 32-bit words held in [Z] *)

Module hashlib.

Definition K : list Z := [
    0xd76aa478; 0xe8c7b756; 0x242070db; 0xc1bdceee;
    0xf57c0faf; 0x4787c62a; 0xa8304613; 0xfd469501;
    0x698098d8; 0x8b44f7af; 0xffff5bb1; 0x895cd7be;
    0x6b901122; 0xfd987193; 0xa679438e; 0x49b40821;
    0xf61e2562; 0xc040b340; 0x265e5a51; 0xe9b6c7aa;
    0xd62f105d; 0x02441453; 0xd8a1e681; 0xe7d3fbc8;
    0x21e1cde6; 0xc33707d6; 0xf4d50d87; 0x455a14ed;
    0xa9e3e905; 0xfcefa3f8; 0x676f02d9; 0x8d2a4c8a;
    0xfffa3942; 0x8771f681; 0x6d9d6122; 0xfde5380c;
    0xa4beea44; 0x4bdecfa9; 0xf6bb4b60; 0xbebfbc70;
    0x289b7ec6; 0xeaa127fa; 0xd4ef3085; 0x04881d05;
    0xd9d4d039; 0xe6db99e5; 0x1fa27cf8; 0xc4ac5665;
    0xf4292244; 0x432aff97; 0xab9423a7; 0xfc93a039;
    0x655b59c3; 0x8f0ccc92; 0xffeff47d; 0x85845dd1;
    0x6fa87e4f; 0xfe2ce6e0; 0xa3014314; 0x4e0811a1;
    0xf7537e82; 0xbd3af235; 0x2ad7d2bb; 0xeb86d391 ].

Definition shifts : list Z :=
  [ 7; 12; 17; 22; 7; 12; 17; 22; 7; 12; 17; 22; 7; 12; 17; 22;
    5; 9; 14; 20; 5; 9; 14; 20; 5; 9; 14; 20; 5; 9; 14; 20;
    4; 11; 16; 23; 4; 11; 16; 23; 4; 11; 16; 23; 4; 11; 16; 23;
    6; 10; 15; 21; 6; 10; 15; 21; 6; 10; 15; 21; 6; 10; 15; 21 ].

Definition add32 (a b : Z) : Z := (a + b) mod 2 ^ 32.
Definition not32 (x : Z) : Z := Z.lxor x 0xffffffff.
Definition rotl32 (x c : Z) : Z :=
  Z.lor (Z.shiftl x c mod 2 ^ 32) (Z.shiftr x (32 - c)).

Definition le_word (bs : list Z) : Z :=
  fold_right (fun b acc => b + 256 * acc) 0 bs.

Definition md5_state : Type := Z * Z * Z * Z.

Definition md5_step (M : list Z) (st : md5_state) (i : nat) : md5_state :=
  let '(a, b, c, d) := st in
  let iz := Z.of_nat i in
  let '(f, g) :=
    if iz <? 16 then (Z.lor (Z.land b c) (Z.land (not32 b) d), iz)
    else if iz <? 32 then
      (Z.lor (Z.land d b) (Z.land (not32 d) c), (5 * iz + 1) mod 16)
    else if iz <? 48 then (Z.lxor (Z.lxor b c) d, (3 * iz + 5) mod 16)
    else (Z.lxor c (Z.lor b (not32 d)), (7 * iz) mod 16) in
  let f' := add32 (add32 (add32 f a) (nth i K 0)) (nth (Z.to_nat g) M 0) in
  (d, add32 b (rotl32 f' (nth i shifts 0)), b, c).

Definition md5_block (st : md5_state) (block : list Z) : md5_state :=
  let M := map le_word (chunks 4 block) in
  let '(a0, b0, c0, d0) := st in
  let '(a, b, c, d) := fold_left (md5_step M) (seq 0 64) st in
  (add32 a0 a, add32 b0 b, add32 c0 c, add32 d0 d).

Definition md5_init : md5_state :=
  (0x67452301, 0xefcdab89, 0x98badcfe, 0x10325476).

Definition md5_pad (msg : list byte) : list Z :=
  let n := Z.of_nat (length msg) in
  map Z_of_byte msg ++ [0x80] ++ repeat 0 (Z.to_nat ((55 - n) mod 64))
    ++ le_bytes 8 ((8 * n) mod 2 ^ 64).

Definition md5_words (msg : list byte) : md5_state :=
  fold_left md5_block (chunks 64 (md5_pad msg)) md5_init.

(** [hashlib.md5(msg).digest()] *)
Definition md5_digest (msg : list byte) : list byte :=
  let '(a, b, c, d) := md5_words msg in
  map byte_of_Z (le_bytes 4 a ++ le_bytes 4 b ++ le_bytes 4 c ++ le_bytes 4 d).

Definition hexdigit (n : Z) : ascii :=
  nth (Z.to_nat n) (list_ascii_of_string "0123456789abcdef") "0"%char.

Definition hexlify (bs : list byte) : list ascii :=
  flat_map (fun b => [hexdigit (Z_of_byte b / 16); hexdigit (Z_of_byte b mod 16)]) bs.

(** [hashlib.md5(msg).hexdigest()] *)
Definition md5_hexdigest (msg : list byte) : string :=
  string_of_list_ascii (hexlify (md5_digest msg)).

End hashlib.

(** ** base64 (RFC 4648, standard alphabet, with padding)

    [b64decode] is the decoder on the encodings [b64encode] produces and
    raises on every other text. *)

Module base64.

Definition alphabet : list ascii :=
  list_ascii_of_string
    "ABCDEFGHIJKLMNOPQRSTUVWXYZabcdefghijklmnopqrstuvwxyz0123456789+/".

Definition b64char (n : Z) : ascii := nth (Z.to_nat n) alphabet "A"%char.

Fixpoint index_of (c : ascii) (l : list ascii) (i : Z) : option Z :=
  match l with
  | [] => None
  | x :: rest => if Ascii.eqb x c then Some i else index_of c rest (i + 1)
  end.

Definition b64index (c : ascii) : option Z := index_of c alphabet 0.

Definition pad : ascii := "="%char.

Fixpoint encode_groups (bs : list byte) : list ascii :=
  match bs with
  | [] => []
  | [a] =>
      let x := Z_of_byte a in
      [b64char (x / 4); b64char (x mod 4 * 16); pad; pad]
  | [a; b] =>
      let x := Z_of_byte a in
      let y := Z_of_byte b in
      [b64char (x / 4); b64char (x mod 4 * 16 + y / 16); b64char (y mod 16 * 4); pad]
  | a :: b :: c :: rest =>
      let x := Z_of_byte a in
      let y := Z_of_byte b in
      let z := Z_of_byte c in
      b64char (x / 4) :: b64char (x mod 4 * 16 + y / 16)
        :: b64char (y mod 16 * 4 + z / 64) :: b64char (z mod 64)
        :: encode_groups rest
  end.

Definition b64encode (bs : list byte) : string :=
  string_of_list_ascii (encode_groups bs).

Fixpoint decode_groups (cs : list ascii) : result (list byte) :=
  match cs with
  | [] => Ok []
  | c1 :: c2 :: c3 :: c4 :: rest =>
      match b64index c1, b64index c2 with
      | Some s1, Some s2 =>
          let b1 := byte_of_Z (s1 * 4 + s2 / 16) in
          if Ascii.eqb c3 pad then
            match rest with
            | [] => if Ascii.eqb c4 pad then Ok [b1] else Raise Base64Error
            | _ => Raise Base64Error
            end
          else
            match b64index c3 with
            | Some s3 =>
                let b2 := byte_of_Z (s2 mod 16 * 16 + s3 / 4) in
                if Ascii.eqb c4 pad then
                  match rest with
                  | [] => Ok [b1; b2]
                  | _ => Raise Base64Error
                  end
                else
                  match b64index c4 with
                  | Some s4 =>
                      let b3 := byte_of_Z (s3 mod 4 * 64 + s4) in
                      bs ← decode_groups rest;
                      Ok (b1 :: b2 :: b3 :: bs)
                  | None => Raise Base64Error
                  end
            | None => Raise Base64Error
            end
      | _, _ => Raise Base64Error
      end
  | _ => Raise Base64Error
  end.

Definition b64decode (s : string) : result (list byte) :=
  decode_groups (list_ascii_of_string s).

End base64.

(** ** Cryptodome: block ciphers and their modes

    The block transformations of Blowfish and AES are parameters: a block
    function takes the key and one block. *)

Module Cryptodome.

Definition block_fn : Type := list byte -> list byte -> list byte.

(** CBC decryption of the blocks [cs], [prev] being the preceding
    ciphertext block (the IV for the first one). *)
Fixpoint cbc_decrypt_chain (D : block_fn) (key prev : list byte)
    (cs : list (list byte)) : list (list byte) :=
  match cs with
  | [] => []
  | c :: rest => xor_bytes (D key c) prev :: cbc_decrypt_chain D key c rest
  end.

Fixpoint cbc_encrypt_chain (E : block_fn) (key prev : list byte)
    (ps : list (list byte)) : list (list byte) :=
  match ps with
  | [] => []
  | p :: rest =>
      let c := E key (xor_bytes p prev) in
      c :: cbc_encrypt_chain E key c rest
  end.

(** [new(key, MODE_CBC, iv).decrypt(data)] for a cipher of block size
    [bs] that accepts the key lengths [key_ok]. *)
Definition cbc_decrypt (bs : nat) (key_ok : nat -> bool) (D : block_fn)
    (key iv data : list byte) : result (list byte) :=
  if negb (key_ok (length key)) then Raise (ValueError "Incorrect key length")
  else if negb (length iv =? bs)%nat then Raise (ValueError "Incorrect IV length")
  else if negb (length data mod bs =? 0)%nat then
    Raise (ValueError "Data must be padded to block boundary in CBC mode")
  else Ok (concat (cbc_decrypt_chain D key iv (chunks bs data))).

(** [new(key, MODE_CBC, iv).encrypt(data)] *)
Definition cbc_encrypt (bs : nat) (key_ok : nat -> bool) (E : block_fn)
    (key iv data : list byte) : result (list byte) :=
  if negb (key_ok (length key)) then Raise (ValueError "Incorrect key length")
  else if negb (length iv =? bs)%nat then Raise (ValueError "Incorrect IV length")
  else if negb (length data mod bs =? 0)%nat then
    Raise (ValueError "Data must be padded to block boundary in CBC mode")
  else Ok (concat (cbc_encrypt_chain E key iv (chunks bs data))).

(** The key stream of CTR mode: the encryptions of the counter blocks
    [prefix ++ counter], the counter being 8 bytes, most significant
    first, as built by [Counter.new(64, prefix=prefix, ...)]. *)
Fixpoint ctr_keystream (E : block_fn) (key prefix : list byte) (counter : Z)
    (nblocks : nat) : list byte :=
  match nblocks with
  | O => []
  | S n => E key (prefix ++ be_bytes 8 counter)
             ++ ctr_keystream E key prefix (counter + 1) n
  end.

(** [new(key, MODE_CTR, counter=Counter.new(64, prefix=prefix,
    initial_value=0))]: the checks made when the cipher object is built. *)
Definition ctr_new (bs : nat) (key_ok : nat -> bool) (key prefix : list byte)
    : result unit :=
  if negb (key_ok (length key)) then Raise (ValueError "Incorrect key length")
  else if negb (length prefix + 8 =? bs)%nat then
    Raise (ValueError "Counter block size does not match the cipher block size")
  else Ok tt.

(** That cipher object's [encrypt(data)] or [decrypt(data)], which are the
    same operation.  The counter may not wrap around. *)
Definition ctr_crypt (bs : nat) (key_ok : nat -> bool) (E : block_fn)
    (key prefix data : list byte) : result (list byte) :=
  _ ← ctr_new bs key_ok key prefix;
  let nblocks := ((length data + (bs - 1)) / bs)%nat in
  if 2 ^ 64 <? Z.of_nat nblocks then
    Raise (OverflowError "The counter has wrapped around in CTR mode")
  else Ok (xor_bytes data (ctr_keystream E key prefix 0 nblocks)).

Definition blowfish_block_size : nat := 8.
Definition blowfish_key_ok (n : nat) : bool := (4 <=? n)%nat && (n <=? 56)%nat.

Definition aes_block_size : nat := 16.
Definition aes_key_ok (n : nat) : bool :=
  (n =? 16)%nat || (n =? 24)%nat || (n =? 32)%nat.

End Cryptodome.

(** ** Further exceptions and values *)

(** The exceptions of the code below that are not among those above. *)
Inductive error :=
| Std (e : exn)
| AttributeError (msg : string)
| IndexError (msg : string).

Inductive outcome (A : Type) :=
| Return (a : A)
| Fail (e : error).
Arguments Return {A} a.
Arguments Fail {A} e.

#[global] Instance outcome_ret : MRet outcome := fun A a => Return a.
#[global] Instance outcome_bind : MBind outcome := fun A B f m =>
  match m with
  | Return a => f a
  | Fail e => Fail e
  end.

(** A [result] as an [outcome]. *)
Definition lift_result {A} (r : result A) : outcome A :=
  match r with
  | Ok a => Return a
  | Raise e => Fail (Std e)
  end.

(** [type(v).__name__] *)
Definition type_name (v : json) : string :=
  match v with
  | JNull => "NoneType"
  | JBool _ => "bool"
  | JNum _ => "int"
  | JStr _ => "str"
  | JArr _ => "list"
  | JObj _ => "dict"
  end.

(** [curr.get(key, default)]: only a [dict] has the method. *)
Definition dict_get (curr : json) (key : string) (default : json) : outcome json :=
  match curr with
  | JObj fields => Return (from_option (fun v => v) default (json_field key fields))
  | other =>
      Fail (AttributeError ("'" +:+ type_name other +:+ "' object has no attribute 'get'"))
  end.

(** [hasattr(v, "__getitem__")] *)
Definition hasattr_getitem (v : json) : bool :=
  match v with
  | JObj _ | JArr _ | JStr _ => true
  | _ => false
  end.

(** [v == {}] *)
Definition is_empty_dict (v : json) : bool :=
  match v with
  | JObj [] => true
  | _ => false
  end.

(** The keys of a parsed object, each once, in the order in which they
    first appear. *)
Definition dict_keys (fields : list (string * json)) : list string :=
  fold_left (fun acc k => if bool_decide (k ∈ acc) then acc else acc ++ [k])
            (map fst fields) [].

(** The items of [for x in v]: the elements of a list, the keys of a
    [dict], the characters of a [str]; other values are not iterable. *)
Definition py_iter (v : json) : result (list json) :=
  match v with
  | JArr items => Ok items
  | JObj fields => Ok (map JStr (dict_keys fields))
  | JStr s => Ok (map (fun c => JStr (String c EmptyString)) (list_ascii_of_string s))
  | other => Raise (TypeError ("'" +:+ type_name other +:+ "' object is not iterable"))
  end.

(** ** Quality resolution *)

(** A provider-specific quality code:
    [Union[int, str, Tuple[int, str]]]. *)
Inductive quality_code :=
| QInt (n : Z)
| QStr (s : string)
| QPair (n : Z) (label : string).

Module utils.

Definition __QUALITY_MAP : gmap string (gmap Z quality_code) :=
  {[ "qobuz" := {[ 1 := QInt 5; 2 := QInt 6; 3 := QInt 7; 4 := QInt 27 ]};
     "deezer" := {[ 0 := QPair 9 "MP3_128";
                    1 := QPair 3 "MP3_320";
                    2 := QPair 1 "FLAC" ]};
     "tidal" := {[ 0 := QStr "LOW"; 1 := QStr "HIGH";
                   2 := QStr "LOSSLESS"; 3 := QStr "HI_RES" ]} ]}.

(** [d[k]] on a dictionary: [KeyError(k)] when the key is missing. *)
Definition subscript {K V} `{Countable K} (mk : K -> dict_key)
    (d : gmap K V) (k : K) : result V :=
  match d !! k with
  | Some v => Ok v
  | None => Raise (KeyError (mk k))
  end.

(** [return __QUALITY_MAP[source][quality_id]] *)
Definition get_quality (quality_id : Z) (source : string) : result quality_code :=
  row ← subscript KStr __QUALITY_MAP source;
  subscript KInt row quality_id.

(** The function ends without a [return] when [bit_depth] is neither 16
    nor 24: the caller then receives Python's [None], here [None]. *)
Definition get_quality_id (bit_depth sampling_rate : option Z) : option Z :=
  match bit_depth, sampling_rate with
  | None, _ | _, None => Some 1
  | Some bd, Some sr =>
      if bd =? 16 then Some 2
      else if bd =? 24 then (if sr <=? 96 then Some 3 else Some 4)
      else None
  end.

Definition get_stats_from_quality (quality_id : Z) : result (option Z * option Z) :=
  if quality_id <=? 1 then Ok (None, None)
  else if quality_id =? 2 then Ok (Some 16, Some 44100)
  else if quality_id =? 3 then Ok (Some 24, Some 96000)
  else if quality_id =? 4 then Ok (Some 24, Some 192000)
  else Raise (InvalidQuality quality_id).

(** [get_stats_from_quality(get_quality_id(bit_depth, sampling_rate))].
    When [get_quality_id] hands over [None], the first comparison
    [None <= 1] raises [TypeError]. *)
Definition stats_of_specs (bit_depth sampling_rate : option Z)
    : result (option Z * option Z) :=
  match get_quality_id bit_depth sampling_rate with
  | Some quality_id => get_stats_from_quality quality_id
  | None => Raise (TypeError "'<=' not supported between instances of 'NoneType' and 'int'")
  end.

Definition ext (quality : Z) (source : string) : string :=
  if quality <=? 1 then
    if String.eqb source "tidal" then ".m4a" else ".mp3"
  else ".flac".

Definition get_container (quality : Z) (source : string) : string :=
  if quality >=? 2 then "FLAC"
  else if String.eqb source "tidal" then "AAC"
  else "MP3".

(** *** Downloads *)

Section transfers.

(** The disk that the download writes to. *)
Variable disk : Disk.

(** [gen_threadsafe_session(headers).get(url, allow_redirects=True,
    stream=True, params=params)] *)
Variable session_get :
  list (string * string) -> string -> list (string * string) -> result Response.

(** The loop [for data in r.iter_content(...): size = file.write(data);
    bar.update(size)] from the write number [i] on: the file system, the
    number of bytes written to the destination (what the bar has counted
    and what a refused write has stored), and the exception of a refused
    write. *)
Fixpoint write_chunks (filepath : string) (items : list (list byte)) (i : nat)
    (fs : FS) (n : Z) : FS * Z * option exn :=
  match items with
  | [] => (fs, n, None)
  | data :: rest =>
      match write_error disk i with
      | Some (stored, e) =>
          let '(fs', size) := file_write filepath (take stored data) fs in
          (fs', n + size, Some e)
      | None =>
          let '(fs', size) := file_write filepath data fs in
          write_chunks filepath rest (S i) fs' (n + size)
      end
  end.

(** The handler [except Exception: try: os.remove(filepath) except
    OSError: pass; raise] around an exception [e] of the body. *)
Definition cleanup_and_reraise (filepath : string) (e : exn) (fs : FS)
    : FS * result unit :=
  if is_Exception e then
    let '(fs', removed) := os_remove disk filepath fs in
    match removed with
    | Ok _ => (fs', Raise e)
    | Raise e' => if is_OSError e' then (fs', Raise e) else (fs', Raise e')
    end
  else (fs, Raise e).

(** The result is the file system afterwards, the number of bytes written
    to the destination, and the outcome. *)
Definition tqdm_download (url filepath : string) (params : list (string * string))
    (fs : FS) : FS * Z * result unit :=
  match session_get [] url params with
  | Raise e => (fs, 0, Raise e)
  | Ok r =>
      let total := default 0 (content_length r) in
      if (total <? 1000) && negb (endswith url "jpg") && negb (endswith url "png")
      then
        match resp_json r with
        | None => (fs, 0, Raise (NonStreamable (Some (JStr "Resource not found."))))
        | Some payload =>
            match json_subscript payload "error" with
            | Ok message => (fs, 0, Raise (NonStreamable (Some message)))
            | Raise e => (fs, 0, Raise e)
            end
        end
      else
        match open_error disk filepath with
        | Some e =>
            let '(fs', outcome) := cleanup_and_reraise filepath e fs in
            (fs', 0, outcome)
        | None =>
            let '(items, fault) := iter_content r 1024 in
            let '(fs', n, refused) :=
              write_chunks filepath items 0 (open_wb filepath fs) 0 in
            match (match refused with Some e => Some e | None => fault end) with
            | None => (fs', n, Ok tt)
            | Some e =>
                let '(fs'', outcome) := cleanup_and_reraise filepath e fs' in
                (fs'', n, outcome)
            end
        end
  end.

End transfers.

Module DownloadStream.

Section stream.

(** The session, as for [tqdm_download]. *)
Variable session_get :
  list (string * string) -> string -> list (string * string) -> result Response.

(** The block function of Blowfish decryption. *)
Variable blowfish_decrypt_block : Cryptodome.block_fn.

Record t := {
  self_source : option string;
  self_id : option string;
  self_request : Response;
  self_file_size : Z
}.

(** [is_encrypted.search(s) is not None] for
    [is_encrypted = re.compile("/m(?:obile|edia)/")]: one of the two
    texts the pattern stands for occurs in [s]. *)
Definition is_encrypted_search (s : string) : bool :=
  bool_decide (is_Some (String.index 0 "/mobile/" s))
  || bool_decide (is_Some (String.index 0 "/media/" s)).

Definition __init__ (url : string) (source : option string)
    (params headers : list (string * string)) (item_id : item_id_arg)
    : result t :=
  let id :=
    match item_id with
    | IdNone => None
    | IdStr s => Some s
    | IdInt n => Some (pretty n)
    end in
  request ← session_get headers url params;
  let file_size := default 0 (content_length request) in
  if file_size =? 0 then Raise (NonStreamable None)
  else Ok {| self_source := source; self_id := id;
             self_request := request; self_file_size := file_size |}.

(** The property [url]. *)
Definition url (self : t) : string := resp_url (self_request self).

(** [__len__] *)
Definition __len__ (self : t) : Z := self_file_size self.

Definition SECRET : string := "g4el58wc0zvf9na1".

Definition _generate_blowfish_key (track_id : string) : result (list byte) :=
  let md5_hash :=
    list_ascii_of_string (hashlib.md5_hexdigest (list_byte_of_string track_id)) in
  joined ← map_result
             (fun t : ascii * ascii * ascii =>
                let '(a, b, c) := t in
                chr (Z.lxor (Z.lxor (ord a) (ord b)) (ord c)))
             (zip (zip (take 16 md5_hash) (drop 16 md5_hash))
                  (list_ascii_of_string SECRET));
  utf8_encode joined.

Definition _decrypt_chunk (key data : list byte) : result (list byte) :=
  Cryptodome.cbc_decrypt Cryptodome.blowfish_block_size Cryptodome.blowfish_key_ok
    blowfish_decrypt_block key [x00; x01; x02; x03; x04; x05; x06; x07] data.

(** The transformation of one chunk by the generator expression. *)
Definition decrypt_item (blowfish_key chunk : list byte) : result (list byte) :=
  if (2048 <=? length chunk)%nat then
    head ← _decrypt_chunk blowfish_key (take 2048 chunk);
    Ok (head ++ drop 2048 chunk)
  else Ok chunk.

Definition __iter__ (self : t) : result (gen (list byte)) :=
  if bool_decide (self_source self = Some "deezer") && is_encrypted_search (url self)
  then
    match self_id self with
    | None => Raise AssertionError
    | Some track_id =>
        blowfish_key ← _generate_blowfish_key track_id;
        Ok (gen_map (decrypt_item blowfish_key)
              (iter_content (self_request self) (2048 * 3)))
    end
  else Ok (iter_content (self_request self) 1024).

End stream.

End DownloadStream.

(** *** Whole-file decryption *)

Section post_decryption.

(** The block functions of AES. *)
Variable aes_encrypt_block : Cryptodome.block_fn.
Variable aes_decrypt_block : Cryptodome.block_fn.

(** Whether [from Crypto.Cipher import AES] succeeds. *)
Variable crypto_installed : bool.

Definition master_key_b64 : string :=
  "UIlTTEMmmLfGowo/UC60x2H45W6MdGgTRfo/umg4754=".

(** The part of [decrypt_mqa_file] before the input file is opened: the
    content key and the nonce unwrapped from the token, and the counter
    cipher built on them. *)
Definition unwrap_token (encryption_key : string) : result (list byte * list byte) :=
  master_key ← base64.b64decode master_key_b64;
  security_token ← base64.b64decode encryption_key;
  let iv := take 16 security_token in
  let encrypted_st := drop 16 security_token in
  decrypted_st ← Cryptodome.cbc_decrypt Cryptodome.aes_block_size
                   Cryptodome.aes_key_ok aes_decrypt_block
                   master_key iv encrypted_st;
  let key := take 16 decrypted_st in
  let nonce := take 8 (drop 16 decrypted_st) in
  _ ← Cryptodome.ctr_new Cryptodome.aes_block_size Cryptodome.aes_key_ok key nonce;
  Ok (key, nonce).


End post_decryption.

(** *** Nested lookups, progress, further properties of a stream *)

Section safe_traversal.

(** [a == b] on the values of a parsed response. *)
Variable py_eq : json -> json -> bool.

(** The loop of [safe_get] from the dictionary [curr] on, [res] being the
    value found last. *)
Fixpoint safe_get_loop (curr res : json) (keys : list string) (default : json)
    : outcome json :=
  match keys with
  | [] => Return res
  | key :: rest =>
      res' ← dict_get curr key default;
      if py_eq res' default || negb (hasattr_getitem res') then Return res'
      else safe_get_loop res' res' rest default
  end.

(** [safe_get(d, *keys, default=default)] *)
Definition safe_get (d : json) (keys : list string) (default : json) : outcome json :=
  safe_get_loop d default keys default.

End safe_traversal.

Section progress.

Variable blowfish_decrypt_block : Cryptodome.block_fn.

(** [tqdm_stream(iterator)] run to its end: the chunks it yields, and the
    [total] and the count of the progress bar.  [len(iterator)] must not
    be negative; the lengths considered fit an index (they are below
    2^63). *)
Definition tqdm_stream (iterator : DownloadStream.t) : gen (list byte) * (Z * Z) :=
  let total := DownloadStream.__len__ iterator in
  if total <? 0 then
    (([], Some (ValueError "__len__() should return >= 0")), (total, 0))
  else
    match DownloadStream.__iter__ blowfish_decrypt_block iterator with
    | Raise e => (([], Some e), (total, 0))
    | Ok (items, stop) =>
        ((items, stop),
         (total, fold_left (fun n chunk => n + Z.of_nat (length chunk)) items 0))
    end.

End progress.

End utils.

Module metadata.

(** The sibling of [utils.get_quality_id]: same branches, and a final
    [raise Exception(f"Invalid {bit_depth = }")]. *)
Definition get_quality_id (bit_depth sampling_rate : option Z) : result Z :=
  match bit_depth, sampling_rate with
  | None, _ | _, None => Ok 1
  | Some bd, Some sr =>
      if bd =? 16 then Ok 2
      else if bd =? 24 then (if sr <=? 96 then Ok 3 else Ok 4)
      else Raise (GenericException ("Invalid bit_depth = " +:+ pretty bd))
  end.

(** [get_album_track_ids(source, resp)] *)
Definition get_album_track_ids (source : string) (resp : json) : result (list json) :=
  tracklist ← json_subscript resp "tracks";
  tracklist ← (if String.eqb source "qobuz" then json_subscript tracklist "items"
               else Ok tracklist);
  tracks ← py_iter tracklist;
  map_result (fun track => json_subscript track "id") tracks.

(** [safe_get(d, *keys, default=default)] of this module. *)
Fixpoint get_all (_d : json) (keys : list string) : outcome json :=
  match keys with
  | [] => Return _d
  | k :: rest =>
      _d' ← dict_get _d k (JObj []);
      get_all _d' rest
  end.

Definition safe_get (d : json) (keys : list string) (default : json) : outcome json :=
  _d ← get_all d keys;
  if is_empty_dict _d then Return default else Return _d.

(** [tuple[str, str | None, str | None]]: size, url, path. *)
Definition CoverEntry : Type := string * option string * option string.

Module Covers.

Section covers.

(** [repr(s)] of a [str]. *)
Variable repr_str : string -> string.

(** The attribute [_covers]. *)
Definition t : Type := list CoverEntry.

Definition __init__ : t :=
  [ ("original", None, None); ("large", None, None);
    ("small", None, None); ("thumbnail", None, None) ].

Definition repr_opt (v : option string) : string :=
  match v with
  | Some s => repr_str s
  | None => "None"
  end.

(** [repr] of a cover entry. *)
Definition repr_entry (e : CoverEntry) : string :=
  "(" +:+ repr_str e.1.1 +:+ ", " +:+ repr_opt e.1.2 +:+ ", " +:+ repr_opt e.2 +:+ ")".

Definition __repr__ (self : t) : string :=
  "Covers(" +:+ String.concat (String "010"%char EmptyString) (map repr_entry self)
  +:+ ")".

Definition _indexof (size : string) : outcome nat :=
  if String.eqb size "original" then Return 0%nat
  else if String.eqb size "large" then Return 1%nat
  else if String.eqb size "small" then Return 2%nat
  else if String.eqb size "thumbnail" then Return 3%nat
  else Fail (Std (GenericException ("Invalid size = " +:+ repr_str size))).

(** [self._covers[i]] *)
Definition getitem (self : t) (i : nat) : outcome CoverEntry :=
  match self !! i with
  | Some e => Return e
  | None => Fail (IndexError "list index out of range")
  end.

(** [self._covers[i] = e] *)
Definition setitem (self : t) (i : nat) (e : CoverEntry) : outcome t :=
  if (i <? length self)%nat then Return (<[i := e]> self)
  else Fail (IndexError "list assignment index out of range").

Definition set_cover (size : string) (url path : option string) (self : t) : outcome t :=
  i ← _indexof size;
  setitem self i (size, url, path).

Definition set_cover_url (size url : string) (self : t) : outcome t :=
  set_cover size (Some url) None self.

Definition empty (self : t) : bool :=
  forallb (fun e : CoverEntry => bool_decide (e.1.2 = None)) self.

(** The first entry whose url is not [None], as the loops
    [for s, u, p in ...: if u is not None: ...] find it. *)
Fixpoint first_with_url (entries : list CoverEntry) : option CoverEntry :=
  match entries with
  | [] => None
  | e :: rest =>
      match e.1.2 with
      | Some _ => Some e
      | None => first_with_url rest
      end
  end.

Definition set_largest_path (path : string) (self : t) : outcome t :=
  match first_with_url self with
  | Some (size, url, _) => set_cover size url (Some path) self
  | None => Fail (Std (GenericException ("No covers found in " +:+ __repr__ self)))
  end.

Definition set_path (size path : string) (self : t) : outcome t :=
  i ← _indexof size;
  e ← getitem self i;
  setitem self i (e.1.1, e.1.2, Some path).

Definition largest (self : t) : outcome CoverEntry :=
  match first_with_url self with
  | Some e => Return e
  | None => Fail (Std (GenericException ("No covers found in " +:+ __repr__ self)))
  end.

Definition get_size (size : string) (self : t) : outcome CoverEntry :=
  i ← _indexof size;
  e ← getitem self i;
  let not_found :=
    Fail (Std (GenericException
                 ("Cover not found for size = " +:+ repr_str e.1.1
                  +:+ ". Available: " +:+ __repr__ self))) in
  match e.1.2 with
  | Some _ => Return e
  | None =>
      if (i + 1 <? length self)%nat then
        match first_with_url (drop (i + 1) self) with
        | Some e' => Return e'
        | None => not_found
        end
      else not_found
  end.

End covers.

End Covers.

End metadata.

(** ** Vocabulary of the specification *)

(** A lookup [(quality_id, source)] that has no entry in the table: the
    provider is missing, or its row has no such id. *)
Definition missing_entry (quality_id : Z) (source : string) : Prop :=
  utils.__QUALITY_MAP !! source = None \/
  exists row, utils.__QUALITY_MAP !! source = Some row /\ row !! quality_id = None.

(** A failure with one of the two domain exceptions of the specification. *)
Definition classified_failure {A} (r : result A) : Prop :=
  exists e, r = Raise e /\
    ((exists q, e = InvalidQuality q) \/ (exists s, e = InvalidSourceError s)).

(** The message the specification expects in [NonStreamable] for a
    response without content: the "error" entry of the parsed body, or
    "Resource not found." when there is none. *)
Definition expected_message (r : Response) : json :=
  match resp_json r with
  | Some payload =>
      match json_subscript payload "error" with
      | Ok message => message
      | Raise _ => JStr "Resource not found."
      end
  | None => JStr "Resource not found."
  end.

(** A session that answers every request with [r]. *)
Definition session_of (r : Response)
    : list (string * string) -> string -> list (string * string) -> result Response :=
  fun _ _ _ => Ok r.

(** An answer that declares no content and carries a provider error. *)
Definition refused_response : Response :=
  {| resp_url := "https://cdn.example.com/track/1";
     content_length := Some 0;
     resp_json := Some (JObj [("error", JStr "Track not available")]);
     resp_body := [];
     resp_fault := None |}.

(** An answer of 3000 bytes whose connection breaks after 2000 of them. *)
Definition broken_response (e : exn) : Response :=
  {| resp_url := "https://cdn.example.com/track/1.flac";
     content_length := Some 3000;
     resp_json := None;
     resp_body := repeat "A"%byte 3000;
     resp_fault := Some (2000%nat, e) |}.

(** A disk that refuses nothing. *)
Definition willing_disk : Disk :=
  {| open_error := fun _ => None;
     write_error := fun _ => None;
     remove_error := fun _ => None |}.

(** A disk on which no file can be removed. *)
Definition sticky_disk : Disk :=
  {| open_error := fun _ => None;
     write_error := fun _ => None;
     remove_error := fun _ => Some (OSError "Operation not permitted") |}.

(** A disk without the directory [nodir]. *)
Definition sparse_disk : Disk :=
  {| open_error := fun path =>
       if String.prefix "nodir/" path then Some (FileNotFoundError path) else None;
     write_error := fun _ => None;
     remove_error := fun _ => None |}.

(** A disk that is full when the third write arrives. *)
Definition full_disk : Disk :=
  {| open_error := fun _ => None;
     write_error := fun i =>
       if (i =? 2)%nat then Some (100%nat, OSError "No space left on device")
       else None;
     remove_error := fun _ => None |}.

(** A code point that UTF-8 encodes as the single byte of the same value. *)
Definition is_ascii_code (x : Z) : Prop := 0 <= x < 128.

(** The exclusive or of the codes of three characters. *)
Definition xor_of_codes (t : ascii * ascii * ascii) : Z :=
  Z.lxor (Z.lxor (ord t.1.1) (ord t.1.2)) (ord t.2).

(** The activation predicate of chunk deobfuscation, as [__iter__] tests
    it: the source tag is "deezer" and the pattern occurs in the resolved
    address. *)
Definition is_obfuscated (self : utils.DownloadStream.t) : bool :=
  bool_decide (utils.DownloadStream.self_source self = Some "deezer")
  && utils.DownloadStream.is_encrypted_search (utils.DownloadStream.url self).

(** The part of [s] before the first character for which [stop] holds. *)
Fixpoint before (stop : ascii -> bool) (s : string) : string :=
  match s with
  | EmptyString => EmptyString
  | String c rest => if stop c then EmptyString else String c (before stop rest)
  end.

(** The part of [s] from the first occurrence of the character [c] on. *)
Fixpoint from_char (c : ascii) (s : string) : string :=
  match s with
  | EmptyString => EmptyString
  | String d rest => if Ascii.eqb c d then s else from_char c rest
  end.

(** The path of an address [scheme://authority/path?query#fragment]: what
    follows the authority, up to the query or the fragment. *)
Definition url_path (u : string) : string :=
  let hier := before (fun c => Ascii.eqb c "?" || Ascii.eqb c "#") u in
  let rest :=
    match String.index 0 "://" hier with
    | Some i => String.substring (i + 3) (String.length hier - (i + 3)) hier
    | None => hier
    end in
  from_char "/" rest.

(** The activation predicate in the words of the specification: the
    source tag is "deezer" and the pattern occurs in the path of the
    resolved address. *)
Definition path_obfuscated (self : utils.DownloadStream.t) : bool :=
  bool_decide (utils.DownloadStream.self_source self = Some "deezer")
  && utils.DownloadStream.is_encrypted_search
       (url_path (utils.DownloadStream.url self)).

(** The fixed initialisation vector 0, 1, ..., 7. *)
Definition fixed_iv : list byte := [x00; x01; x02; x03; x04; x05; x06; x07].

(** What the specification says of one received chunk and the chunk
    handed to the caller: from 2048 bytes on, the first 2048 bytes are
    replaced by their Blowfish-CBC decryption under [key] and the fixed
    IV, started afresh, and the rest is kept; a shorter chunk is kept
    whole. *)
Definition deobfuscated (D : Cryptodome.block_fn) (key chunk out : list byte) : Prop :=
  ((2048 <= length chunk)%nat ->
     exists plain,
       Cryptodome.cbc_decrypt 8 Cryptodome.blowfish_key_ok D key fixed_iv
         (take 2048 chunk) = Ok plain /\
       plain = concat (Cryptodome.cbc_decrypt_chain D key fixed_iv
                         (chunks 8 (take 2048 chunk))) /\
       length plain = 2048%nat /\
       out = plain ++ drop 2048 chunk /\
       length (drop 2048 chunk) = (length chunk - 2048)%nat) /\
  ((length chunk < 2048)%nat -> out = chunk).

(** A stand-in block function for examples: it returns the block. *)
Definition toy_block : Cryptodome.block_fn := fun _ block => block.

(** An answer of 7000 bytes from an obfuscated address. *)
Definition media_response : Response :=
  {| resp_url := "https://e-cdns-proxy-1.dzcdn.net/media/1/abcdef";
     content_length := Some 7000;
     resp_json := None;
     resp_body := repeat "B"%byte 7000;
     resp_fault := None |}.

(** An obfuscated stream and a plain one over that answer. *)
Definition media_stream : utils.DownloadStream.t :=
  {| utils.DownloadStream.self_source := Some "deezer";
     utils.DownloadStream.self_id := Some "3135556";
     utils.DownloadStream.self_request := media_response;
     utils.DownloadStream.self_file_size := 7000 |}.

Definition plain_stream : utils.DownloadStream.t :=
  {| utils.DownloadStream.self_source := Some "qobuz";
     utils.DownloadStream.self_id := None;
     utils.DownloadStream.self_request := media_response;
     utils.DownloadStream.self_file_size := 7000 |}.

(** A deezer stream whose resolved address has the marker in its query
    only. *)
Definition query_response : Response :=
  {| resp_url := "https://cdn.example.com/track?x=/media/";
     content_length := Some 7000;
     resp_json := None;
     resp_body := repeat "B"%byte 7000;
     resp_fault := None |}.

Definition query_stream : utils.DownloadStream.t :=
  {| utils.DownloadStream.self_source := Some "deezer";
     utils.DownloadStream.self_id := Some "3135556";
     utils.DownloadStream.self_request := query_response;
     utils.DownloadStream.self_file_size := 7000 |}.

(** The embedded master key, decoded. *)
Definition master_key : list byte :=
  match base64.b64decode utils.master_key_b64 with
  | Ok k => k
  | Raise _ => []
  end.

(** A security token as the specification describes it: the blob
    [content_key ++ nonce], filled up to whole blocks by [padding],
    encrypted with AES-CBC under the master key and [iv]; [iv] in front;
    the whole in base64. *)
Definition wrap_token (E : Cryptodome.block_fn)
    (iv content_key nonce padding : list byte) : result string :=
  c ← Cryptodome.cbc_encrypt Cryptodome.aes_block_size Cryptodome.aes_key_ok E
        master_key iv (content_key ++ nonce ++ padding);
  Ok (base64.b64encode (iv ++ c)).

(** Sample key material and a sample file. *)
Definition sample_content_key : list byte := list_byte_of_string "0123456789abcdef".
Definition sample_nonce : list byte := list_byte_of_string "8 bytes.".
Definition sample_iv : list byte := repeat "*"%byte 16.
Definition sample_padding : list byte := repeat x08 8.

(** The bytes a response delivers before its connection ends or breaks. *)
Definition delivered (r : Response) : list byte :=
  match resp_fault r with
  | None => resp_body r
  | Some (k, _) => take k (resp_body r)
  end.

(** The size check of [tqdm_download] on an address and a response. *)
Definition too_small (url : string) (r : Response) : bool :=
  (default 0 (content_length r) <? 1000)
  && negb (endswith url "jpg") && negb (endswith url "png").

(** A token for the sample key material. *)
Definition sample_token : string :=
  match wrap_token toy_block sample_iv sample_content_key sample_nonce
          sample_padding with
  | Ok token => token
  | Raise _ => ""
  end.

(** The value under the path [keys] in nested dictionaries, when every
    key is there and every value on the way is a dictionary. *)
Fixpoint descend (d : json) (keys : list string) : option json :=
  match keys with
  | [] => Some d
  | k :: rest =>
      match d with
      | JObj fields =>
          match json_field k fields with
          | Some v => descend v rest
          | None => None
          end
      | _ => None
      end
  end.

(** A stand-in for [==] in examples: the same value, written the same way. *)
Fixpoint json_same (a b : json) : bool :=
  match a, b with
  | JNull, JNull => true
  | JBool x, JBool y => Bool.eqb x y
  | JNum x, JNum y => x =? y
  | JStr x, JStr y => String.eqb x y
  | JArr xs, JArr ys =>
      (fix all_same (xs ys : list json) : bool :=
         match xs, ys with
         | [], [] => true
         | x :: xs', y :: ys' => json_same x y && all_same xs' ys'
         | _, _ => false
         end) xs ys
  | JObj fs, JObj gs =>
      (fix all_same (fs gs : list (string * json)) : bool :=
         match fs, gs with
         | [], [] => true
         | (k, v) :: fs', (k', w) :: gs' =>
             String.eqb k k' && json_same v w && all_same fs' gs'
         | _, _ => false
         end) fs gs
  | _, _ => false
  end.

(** A parsed track: [{"performer": {"name": "Nina"}, "duration": 215,
    "tags": ["live"]}]. *)
Definition sample_track : json :=
  JObj [ ("performer", JObj [("name", JStr "Nina")]);
         ("duration", JNum 215);
         ("tags", JArr [JStr "live"]) ].

(** The four sizes of a [Covers] object, largest first. *)
Definition cover_sizes : list string := ["original"; "large"; "small"; "thumbnail"].

(** The shape [Covers] keeps: one entry per size, in that order. *)
Definition covers_wf (c : list metadata.CoverEntry) : Prop :=
  map (fun e : metadata.CoverEntry => e.1.1) c = cover_sizes.

(** An entry without url. *)
Definition no_url (e : metadata.CoverEntry) : Prop := e.1.2 = None.

(** A stand-in for [repr] on [str] in examples: the text in single quotes. *)
Definition quoted (s : string) : string := "'" +:+ s +:+ "'".

(** A [Covers] object with a large and a thumbnail cover. *)
Definition sample_covers : list metadata.CoverEntry :=
  [ ("original", None, None);
    ("large", Some "https://static.example.com/600.jpg", Some "/tmp/cover.jpg");
    ("small", None, None);
    ("thumbnail", Some "https://static.example.com/50.jpg", None) ].

(** A parsed album of two tracks, as qobuz answers. *)
Definition sample_album : json :=
  JObj [ ("tracks",
          JObj [("items", JArr [ JObj [("id", JNum 11); ("title", JStr "A")];
                                 JObj [("id", JNum 12); ("title", JStr "B")] ])]) ].

(* ===================================================================== *)
(** * Part II: properties                                                 *)
(* ===================================================================== *)


(** ** Bytes and chunks *)



Lemma Z_of_byte_of_Z (z : Z) : 0 <= z < 256 -> Z_of_byte (byte_of_Z z) = z.
Proof.
  intros Hz. unfold byte_of_Z. rewrite Z.mod_small by assumption.
  destruct (Byte.of_N (Z.to_N z)) as [b|] eqn:Hb.
  - apply Byte.to_of_N in Hb. unfold Z_of_byte. cbn [default from_option id].
    unfold id. rewrite Hb. lia.
  - apply Byte.of_N_None_iff in Hb. lia.
Qed.

Lemma lxor_below_pow2 (n a b : Z) :
  0 <= n -> 0 <= a < 2 ^ n -> 0 <= b < 2 ^ n -> 0 <= Z.lxor a b < 2 ^ n.
Proof.
  intros Hn Ha Hb.
  assert (Hnn : 0 <= Z.lxor a b) by (apply Z.lxor_nonneg; lia).
  split; [assumption|].
  destruct (Z.eq_dec (Z.lxor a b) 0) as [Hz | Hz]; [lia|].
  apply Z.log2_lt_pow2; [lia|].
  pose proof (Z.log2_lxor a b ltac:(lia) ltac:(lia)) as Hlog.
  assert (Hpos : 0 < n).
  { destruct (Z.eq_dec n 0) as [-> | Hn0]; [|lia].
    rewrite Z.pow_0_r in Ha, Hb.
    assert (a = 0) by lia. assert (b = 0) by lia. subst a b.
    rewrite Z.lxor_0_r in Hz. lia. }
  assert (Hlog2 : forall x, 0 <= x < 2 ^ n -> Z.log2 x < n).
  { intros x Hx. destruct (Z.eq_dec x 0) as [-> | Hx0].
    - rewrite Z.log2_nonpos; lia.
    - apply Z.log2_lt_pow2; lia. }
  pose proof (Hlog2 a Ha). pose proof (Hlog2 b Hb). lia.
Qed.


Lemma xor_bytes_length (a k : list byte) :
  (length a <= length k)%nat -> length (xor_bytes a k) = length a.
Proof.
  intros H. unfold xor_bytes. rewrite length_zip_with. lia.
Qed.


Section chunk_lemmas.
Context {A : Type}.
Variable n : nat.
Hypothesis n_pos : (0 < n)%nat.

Lemma chunks_fuel_enough (f1 f2 : nat) (l : list A) :
  (length l <= f1)%nat -> (length l <= f2)%nat ->
  chunks_fuel f1 n l = chunks_fuel f2 n l.
Proof.
  revert f2 l. induction f1 as [|f1 IH]; intros f2 l H1 H2.
  - destruct l; [|simpl in H1; lia]. destruct f2; reflexivity.
  - destruct f2 as [|f2].
    + destruct l; [reflexivity | simpl in H2; lia].
    + destruct l as [|x l]; [reflexivity|].
      cbn [chunks_fuel]. f_equal.
      apply IH; rewrite length_drop; simpl in *; lia.
Qed.

(** The chunks, put together again, are the data. *)
Lemma concat_chunks (l : list A) : concat (chunks n l) = l.
Proof.
  unfold chunks.
  assert (H : forall f (l : list A),
             (length l <= f)%nat -> concat (chunks_fuel f n l) = l).
  { clear l. induction f as [|f IH]; intros l Hl.
    - destruct l; [reflexivity | simpl in Hl; lia].
    - destruct l as [|x l]; [reflexivity|].
      cbn [chunks_fuel concat]. rewrite IH.
      + apply take_drop.
      + rewrite length_drop. simpl in *. lia. }
  apply H. lia.
Qed.

Lemma chunks_app_block (b rest : list A) :
  length b = n -> chunks n (b ++ rest) = b :: chunks n rest.
Proof.
  intros Hb. unfold chunks. rewrite length_app, Hb.
  replace (n + length rest)%nat with (S (n - 1 + length rest)) by lia.
  cbn [chunks_fuel].
  destruct (b ++ rest) as [|x l] eqn:Hl.
  { destruct b; simpl in *; [lia | discriminate]. }
  rewrite <- Hl.
  rewrite take_app_length', drop_app_length' by (symmetry; exact Hb). f_equal.
  apply chunks_fuel_enough; lia.
Qed.


Lemma chunks_of_multiple (k : nat) (l : list A) :
  length l = (k * n)%nat ->
  Forall (fun b => length b = n) (chunks n l) /\ concat (chunks n l) = l.
Proof.
  revert l. induction k as [|k IH]; intros l Hl.
  - destruct l; [|simpl in Hl; lia]. split; [constructor | reflexivity].
  - rewrite <- (take_drop n l).
    assert (Htake : length (take n l) = n) by (rewrite length_take; lia).
    rewrite chunks_app_block by assumption.
    destruct (IH (drop n l)) as [Hall Hcat].
    { rewrite length_drop. lia. }
    split.
    + constructor; assumption.
    + cbn [concat]. rewrite Hcat. reflexivity.
Qed.

End chunk_lemmas.

Import utils.

Section quality_properties.

(** ** The quality tables *)

Lemma get_quality_unknown_source (quality_id : Z) (source : string) :
  __QUALITY_MAP !! source = None ->
  get_quality quality_id source = Raise (KeyError (KStr source)).
Proof.
  intros Hs. unfold get_quality, subscript. rewrite Hs. reflexivity.
Qed.

Lemma get_quality_unknown_id (quality_id : Z) (source : string) row :
  __QUALITY_MAP !! source = Some row ->
  row !! quality_id = None ->
  get_quality quality_id source = Raise (KeyError (KInt quality_id)).
Proof.
  intros Hs Hq. unfold get_quality, subscript. rewrite Hs. simpl.
  rewrite Hq. reflexivity.
Qed.

(** Every entry of the three tables, and nothing else: outside the listed
    keys the lookup raises [KeyError] with the quality id. *)
Lemma get_quality_qobuz (q : Z) :
  get_quality q "qobuz" =
    match q with
    | 1 => Ok (QInt 5) | 2 => Ok (QInt 6) | 3 => Ok (QInt 7) | 4 => Ok (QInt 27)
    | _ => Raise (KeyError (KInt q))
    end.
Proof.
  unfold get_quality, subscript.
  replace (__QUALITY_MAP !! "qobuz") with
    (Some ({[ 1 := QInt 5; 2 := QInt 6; 3 := QInt 7; 4 := QInt 27 ]} : gmap Z quality_code))
    by reflexivity.
  cbn [mbind result_bind].
  repeat (rewrite lookup_insert; case_decide; [subst q; reflexivity|]).
  rewrite lookup_singleton; case_decide; [subst q; reflexivity|].
  destruct q as [|p|p]; try reflexivity.
  do 3 (destruct p as [p|p|]; try reflexivity; try congruence).
Qed.

Lemma get_quality_deezer (q : Z) :
  get_quality q "deezer" =
    match q with
    | 0 => Ok (QPair 9 "MP3_128") | 1 => Ok (QPair 3 "MP3_320")
    | 2 => Ok (QPair 1 "FLAC")
    | _ => Raise (KeyError (KInt q))
    end.
Proof.
  unfold get_quality, subscript.
  replace (__QUALITY_MAP !! "deezer") with
    (Some ({[ 0 := QPair 9 "MP3_128"; 1 := QPair 3 "MP3_320";
              2 := QPair 1 "FLAC" ]} : gmap Z quality_code))
    by reflexivity.
  cbn [mbind result_bind].
  repeat (rewrite lookup_insert; case_decide; [subst q; reflexivity|]).
  rewrite lookup_singleton; case_decide; [subst q; reflexivity|].
  destruct q as [|p|p]; try reflexivity; try congruence.
  do 2 (destruct p as [p|p|]; try reflexivity; try congruence).
Qed.

Lemma get_quality_tidal (q : Z) :
  get_quality q "tidal" =
    match q with
    | 0 => Ok (QStr "LOW") | 1 => Ok (QStr "HIGH")
    | 2 => Ok (QStr "LOSSLESS") | 3 => Ok (QStr "HI_RES")
    | _ => Raise (KeyError (KInt q))
    end.
Proof.
  unfold get_quality, subscript.
  replace (__QUALITY_MAP !! "tidal") with
    (Some ({[ 0 := QStr "LOW"; 1 := QStr "HIGH";
              2 := QStr "LOSSLESS"; 3 := QStr "HI_RES" ]} : gmap Z quality_code))
    by reflexivity.
  cbn [mbind result_bind].
  repeat (rewrite lookup_insert; case_decide; [subst q; reflexivity|]).
  rewrite lookup_singleton; case_decide; [subst q; reflexivity|].
  destruct q as [|p|p]; try reflexivity; try congruence.
  do 2 (destruct p as [p|p|]; try reflexivity; try congruence).
Qed.

(** The providers of the table are exactly these three. *)
Lemma quality_map_sources (source : string) :
  is_Some (__QUALITY_MAP !! source) <->
  source = "qobuz" \/ source = "deezer" \/ source = "tidal".
Proof.
  unfold __QUALITY_MAP.
  rewrite !lookup_insert_is_Some, lookup_singleton_is_Some.
  split.
  - intros [H|[_ [H|[_ H]]]]; subst source; auto.
  - intros [H | [H | H]]; subst source.
    + left; reflexivity.
    + right; split; [discriminate|left; reflexivity].
    + right; split; [discriminate|]. right; split; [discriminate|reflexivity].
Qed.

(** C6: the provider tables hold the specified codes with their own index
    bases: qobuz is keyed 1..4 with 5, 6, 7, 27; deezer is keyed 0..2;
    tidal is keyed 0..3; at universal id 2 the three providers answer
    6, (1, "FLAC") and "LOSSLESS". *)
Theorem quality_tables_match :
  get_quality 2 "qobuz" = Ok (QInt 6) /\
  get_quality 2 "deezer" = Ok (QPair 1 "FLAC") /\
  get_quality 2 "tidal" = Ok (QStr "LOSSLESS") /\
  (forall q, get_quality q "qobuz" =
     match q with
     | 1 => Ok (QInt 5) | 2 => Ok (QInt 6) | 3 => Ok (QInt 7) | 4 => Ok (QInt 27)
     | _ => Raise (KeyError (KInt q))
     end) /\
  (forall q, get_quality q "deezer" =
     match q with
     | 0 => Ok (QPair 9 "MP3_128") | 1 => Ok (QPair 3 "MP3_320")
     | 2 => Ok (QPair 1 "FLAC")
     | _ => Raise (KeyError (KInt q))
     end) /\
  (forall q, get_quality q "tidal" =
     match q with
     | 0 => Ok (QStr "LOW") | 1 => Ok (QStr "HIGH")
     | 2 => Ok (QStr "LOSSLESS") | 3 => Ok (QStr "HI_RES")
     | _ => Raise (KeyError (KInt q))
     end).
Proof.
  repeat split; try reflexivity.
  - apply get_quality_qobuz.
  - apply get_quality_deezer.
  - apply get_quality_tidal.
Qed.

(** ** Universal quality id *)

(** The branches of [get_quality_id] that return an id. *)
Lemma get_quality_id_cases (bit_depth sampling_rate : option Z) :
  (bit_depth = None \/ sampling_rate = None ->
     get_quality_id bit_depth sampling_rate = Some 1) /\
  (forall sr, sampling_rate = Some sr -> bit_depth = Some 16 ->
     get_quality_id bit_depth sampling_rate = Some 2) /\
  (forall sr, sampling_rate = Some sr -> bit_depth = Some 24 -> sr <= 96 ->
     get_quality_id bit_depth sampling_rate = Some 3) /\
  (forall sr, sampling_rate = Some sr -> bit_depth = Some 24 -> 96 < sr ->
     get_quality_id bit_depth sampling_rate = Some 4).
Proof.
  repeat split.
  - intros [-> | ->]; [reflexivity | destruct bit_depth; reflexivity].
  - intros sr -> ->. reflexivity.
  - intros sr -> -> Hsr. simpl. destruct (Z.leb_spec sr 96); [reflexivity | lia].
  - intros sr -> -> Hsr. simpl. destruct (Z.leb_spec sr 96); [lia | reflexivity].
Qed.

(** Any other bit depth: [utils.get_quality_id] returns [None] where
    [metadata.get_quality_id] raises. *)
Lemma get_quality_id_other_depth (bd sr : Z) :
  bd <> 16 -> bd <> 24 ->
  get_quality_id (Some bd) (Some sr) = None /\
  metadata.get_quality_id (Some bd) (Some sr) =
    Raise (GenericException ("Invalid bit_depth = " +:+ pretty bd)).
Proof.
  intros H16 H24. unfold get_quality_id, metadata.get_quality_id.
  destruct (Z.eqb_spec bd 16); [contradiction|].
  destruct (Z.eqb_spec bd 24); [contradiction|]. split; reflexivity.
Qed.

(** C5: at bit depth 20 [utils.get_quality_id] raises nothing and returns
    [None], while the specification (and the sibling
    [metadata.get_quality_id]) make any bit depth other than 16 and 24 an
    error. *)
Theorem get_quality_id_bit_depth_20 :
  get_quality_id (Some 20) (Some 44) = None /\
  metadata.get_quality_id (Some 20) (Some 44) =
    Raise (GenericException "Invalid bit_depth = 20").
Proof. split; reflexivity. Qed.

(** C7, as stated: a missing provider or id makes [get_quality] fail with
    [InvalidQuality] or [InvalidSourceError].  It does not: the failure of
    an unknown provider is the [KeyError] of the dictionary. *)
Lemma get_quality_failure_unclassified :
  missing_entry 2 "soundcloud" /\
  get_quality 2 "soundcloud" = Raise (KeyError (KStr "soundcloud")) /\
  ~ classified_failure (get_quality 2 "soundcloud").
Proof.
  split; [left; reflexivity|]. split; [reflexivity|].
  intros [e [He [[q Hq] | [s Hs]]]]; subst e; discriminate He.
Qed.

(** C7, amended: a missing provider or id makes [get_quality] fail with
    the [KeyError] of the failed dictionary lookup: on the provider tag
    when the provider is missing, on the quality id when the provider's
    row has no such id. *)
Theorem get_quality_missing_entry (quality_id : Z) (source : string) :
  missing_entry quality_id source ->
  (utils.__QUALITY_MAP !! source = None /\
   get_quality quality_id source = Raise (KeyError (KStr source))) \/
  (is_Some (utils.__QUALITY_MAP !! source) /\
   get_quality quality_id source = Raise (KeyError (KInt quality_id))).
Proof.
  intros [Hs | [row [Hs Hq]]].
  - left. split; [assumption|]. apply get_quality_unknown_source; assumption.
  - right. split; [eauto|]. eapply get_quality_unknown_id; eassumption.
Qed.

Lemma get_quality_missing_entry_witness :
  get_quality 3 "deezer" = Raise (KeyError (KInt 3)) /\
  get_quality 3 "napster" = Raise (KeyError (KStr "napster")).
Proof.
  split.
  - destruct (get_quality_missing_entry 3 "deezer") as [[Hn _] | [_ H]].
    + right. eexists. split; reflexivity.
    + discriminate Hn.
    + exact H.
  - destruct (get_quality_missing_entry 3 "napster") as [[_ H] | [[row Hn] _]].
    + left. reflexivity.
    + exact H.
    + discriminate Hn.
Defined.

(** ** Quality id to bit depth and sampling rate *)

Lemma get_stats_from_quality_low (quality_id : Z) :
  quality_id <= 1 -> get_stats_from_quality quality_id = Ok (None, None).
Proof.
  intros H. unfold get_stats_from_quality.
  destruct (Z.leb_spec quality_id 1); [reflexivity | lia].
Qed.

Lemma get_stats_from_quality_high (quality_id : Z) :
  4 < quality_id ->
  get_stats_from_quality quality_id = Raise (InvalidQuality quality_id).
Proof.
  intros H. unfold get_stats_from_quality.
  destruct (Z.leb_spec quality_id 1); [lia|].
  destruct (Z.eqb_spec quality_id 2); [lia|].
  destruct (Z.eqb_spec quality_id 3); [lia|].
  destruct (Z.eqb_spec quality_id 4); [lia|]. reflexivity.
Qed.

(** C8: [get_stats_from_quality] after [get_quality_id] gives (16, 44100)
    when the id in between is 2, (24, 96000) when it is 3, (24, 192000)
    when it is 4 and (None, None) when it is at most 1;
    [get_stats_from_quality] alone returns (None, None) for every id up to
    1 and raises [InvalidQuality] exactly for the ids above 4. *)
Theorem stats_of_specs_by_id (bit_depth sampling_rate : option Z) :
  (get_quality_id bit_depth sampling_rate = Some 2 ->
     stats_of_specs bit_depth sampling_rate = Ok (Some 16, Some 44100)) /\
  (get_quality_id bit_depth sampling_rate = Some 3 ->
     stats_of_specs bit_depth sampling_rate = Ok (Some 24, Some 96000)) /\
  (get_quality_id bit_depth sampling_rate = Some 4 ->
     stats_of_specs bit_depth sampling_rate = Ok (Some 24, Some 192000)) /\
  (forall id, get_quality_id bit_depth sampling_rate = Some id -> id <= 1 ->
     stats_of_specs bit_depth sampling_rate = Ok (None, None)) /\
  (forall id, id <= 1 -> get_stats_from_quality id = Ok (None, None)) /\
  (forall id, get_stats_from_quality id = Raise (InvalidQuality id) <-> 4 < id).
Proof.
  unfold stats_of_specs.
  split; [intros ->; reflexivity|].
  split; [intros ->; reflexivity|].
  split; [intros ->; reflexivity|].
  split; [intros id -> Hid; apply get_stats_from_quality_low; assumption|].
  split; [apply get_stats_from_quality_low|].
  intros id. split; [|apply get_stats_from_quality_high].
  unfold get_stats_from_quality.
  destruct (Z.leb_spec id 1); [discriminate|].
  destruct (Z.eqb_spec id 2); [discriminate|].
  destruct (Z.eqb_spec id 3); [discriminate|].
  destruct (Z.eqb_spec id 4); [discriminate|]. lia.
Qed.

Lemma stats_of_specs_by_id_witness :
  stats_of_specs (Some 16) (Some 44) = Ok (Some 16, Some 44100) /\
  stats_of_specs (Some 24) (Some 96) = Ok (Some 24, Some 96000) /\
  stats_of_specs (Some 24) (Some 192) = Ok (Some 24, Some 192000) /\
  stats_of_specs None (Some 44) = Ok (None, None) /\
  get_stats_from_quality 0 = Ok (None, None) /\
  get_stats_from_quality 5 = Raise (InvalidQuality 5).
Proof.
  split; [exact (proj1 (stats_of_specs_by_id (Some 16) (Some 44)) eq_refl)|].
  split; [exact (proj1 (proj2 (stats_of_specs_by_id (Some 24) (Some 96))) eq_refl)|].
  split; [exact (proj1 (proj2 (proj2 (stats_of_specs_by_id (Some 24) (Some 192)))) eq_refl)|].
  destruct (stats_of_specs_by_id None (Some 44)) as (_ & _ & _ & Hlow & Hid & Hhigh).
  split; [apply (Hlow 1); [reflexivity | lia]|].
  split; [apply Hid; lia|].
  apply Hhigh; lia.
Defined.

(** ** Container and extension *)

(** C10: [ext] and [get_container] are defined on every quality id and
    every provider string, with no failing branch; a provider other than
    "tidal" is handled as the MP3 one, also when it is unknown to the
    quality table, on which [get_quality] fails. *)
Theorem ext_get_container_total (quality : Z) (source : string) :
  (ext quality source = ".m4a" \/ ext quality source = ".mp3" \/
   ext quality source = ".flac") /\
  (get_container quality source = "AAC" \/ get_container quality source = "MP3" \/
   get_container quality source = "FLAC") /\
  (2 <= quality ->
     ext quality source = ".flac" /\ get_container quality source = "FLAC") /\
  (quality <= 1 -> source = "tidal" ->
     ext quality source = ".m4a" /\ get_container quality source = "AAC") /\
  (quality <= 1 -> source <> "tidal" ->
     ext quality source = ".mp3" /\ get_container quality source = "MP3") /\
  (utils.__QUALITY_MAP !! source = None ->
     get_quality quality source = Raise (KeyError (KStr source))).
Proof.
  unfold ext, get_container.
  rewrite Z.geb_leb.
  destruct (Z.leb_spec quality 1) as [Hq | Hq];
    destruct (Z.leb_spec 2 quality) as [Hq' | Hq']; try lia;
    destruct (String.eqb_spec source "tidal") as [Hs | Hs];
    repeat split; auto; try lia; try contradiction;
    try (intros; apply get_quality_unknown_source; assumption).
Qed.

Lemma ext_get_container_total_witness :
  (ext 1 "soundcloud" = ".mp3" /\ get_container 1 "soundcloud" = "MP3") /\
  (ext 0 "tidal" = ".m4a" /\ get_container 0 "tidal" = "AAC") /\
  (ext 3 "qobuz" = ".flac" /\ get_container 3 "qobuz" = "FLAC") /\
  get_quality 1 "soundcloud" = Raise (KeyError (KStr "soundcloud")).
Proof.
  destruct (ext_get_container_total 1 "soundcloud") as (_ & _ & _ & _ & Hmp3 & Hkey).
  destruct (ext_get_container_total 0 "tidal") as (_ & _ & _ & Haac & _).
  destruct (ext_get_container_total 3 "qobuz") as (_ & _ & Hflac & _).
  split; [apply Hmp3; [lia | discriminate]|].
  split; [apply Haac; [lia | reflexivity]|].
  split; [apply Hflac; lia|].
  apply Hkey. reflexivity.
Defined.

End quality_properties.

Section transfer_properties.

Variable disk : Disk.

Variable session_get :
  list (string * string) -> string -> list (string * string) -> result Response.

(** ** Responses without content *)

(** C4, as stated: with content length 0 the fetch fails with a
    [NonStreamable] that carries the provider's error text.
    [DownloadStream] raises the bare exception instead. *)
Lemma download_stream_refusal_has_no_message :
  content_length refused_response = Some 0 /\
  expected_message refused_response = JStr "Track not available" /\
  DownloadStream.__init__ (session_of refused_response)
    "https://api.example.com/track/1" (Some "deezer") [] [] (IdInt 1)
    = Raise (NonStreamable None) /\
  DownloadStream.__init__ (session_of refused_response)
    "https://api.example.com/track/1" (Some "deezer") [] [] (IdInt 1)
    <> Raise (NonStreamable (Some (expected_message refused_response))).
Proof.
  repeat split; try reflexivity. discriminate.
Qed.

(** The size check of [tqdm_download] lets image addresses through: a
    cover declared empty is written as an empty file. *)
Lemma tqdm_download_empty_image :
  tqdm_download willing_disk (session_of refused_response)
    "https://img.example.com/cover.jpg" "cover.jpg" [] ∅
  = ({[ "cover.jpg" := [] ]}, 0, Ok tt).
Proof. reflexivity. Qed.

(** C4, amended: when the response declares content length 0 (or none),
    [DownloadStream] fails with [NonStreamable], without a message, and no
    stream object exists from which a chunk could be read; for an address
    that ends neither in jpg nor in png, [tqdm_download] fails before the
    destination is opened and before any byte is counted, with
    [NonStreamable] carrying the "error" entry of the body when the body
    parses and has one, and "Resource not found." when the body does not
    parse. *)
Theorem zero_length_is_not_streamable
    (url filepath : string) (source : option string)
    (params headers : list (string * string)) (item_id : item_id_arg)
    (fs : FS) (r : Response) :
  session_get headers url params = Ok r ->
  session_get [] url params = Ok r ->
  default 0 (content_length r) = 0 ->
  DownloadStream.__init__ session_get url source params headers item_id
    = Raise (NonStreamable None) /\
  (endswith url "jpg" = false -> endswith url "png" = false ->
   (resp_json r = None ->
      tqdm_download disk session_get url filepath params fs
      = (fs, 0, Raise (NonStreamable (Some (JStr "Resource not found."))))) /\
   (forall payload message,
      resp_json r = Some payload -> json_subscript payload "error" = Ok message ->
      tqdm_download disk session_get url filepath params fs
      = (fs, 0, Raise (NonStreamable (Some message))))).
Proof.
  intros Hget Hget0 Hlen. split.
  - unfold DownloadStream.__init__. rewrite Hget. cbn [mbind result_bind].
    rewrite Hlen. reflexivity.
  - intros Hjpg Hpng. unfold tqdm_download. rewrite Hget0, Hlen, Hjpg, Hpng.
    cbn [Z.ltb Z.compare negb andb]. split.
    + intros ->. reflexivity.
    + intros payload message -> ->. reflexivity.
Qed.

(** ** Cleanup of a failed download *)

(** While the disk refuses no write, the loop appends every chunk to the
    destination and adds its length to the count. *)
Lemma write_chunks_spec (filepath : string) (items : list (list byte)) (i : nat)
    (fs : FS) (n : Z) :
  (forall j, write_error disk j = None) ->
  write_chunks disk filepath items i fs n
  = (match items with
     | [] => fs
     | _ => <[filepath := default [] (fs !! filepath) ++ concat items]> fs
     end,
     n + Z.of_nat (length (concat items)), None).
Proof.
  intros Hwrite. revert i fs n. induction items as [|data rest IH]; intros i fs n.
  - simpl. repeat f_equal. lia.
  - cbn [write_chunks file_write]. rewrite Hwrite, IH. f_equal. f_equal.
    + destruct rest as [|data' rest'].
      * simpl. rewrite app_nil_r. reflexivity.
      * rewrite lookup_insert_eq. cbn [default]. rewrite insert_insert_eq.
        cbn [concat]. unfold id. rewrite <- app_assoc. reflexivity.
    + cbn [concat]. rewrite length_app. lia.
Qed.

(** The loop changes no file but the destination, whatever the disk
    refuses. *)
Lemma write_chunks_other (filepath other : string) (items : list (list byte))
    (i : nat) (fs : FS) (n : Z) :
  other <> filepath ->
  (write_chunks disk filepath items i fs n).1.1 !! other = fs !! other.
Proof.
  intros Hother. revert i fs n. induction items as [|data rest IH]; intros i fs n.
  - reflexivity.
  - cbn [write_chunks file_write].
    destruct (write_error disk i) as [[stored e]|].
    + cbn [fst]. apply lookup_insert_ne. congruence.
    + rewrite IH. apply lookup_insert_ne. congruence.
Qed.

(** Neither does the handler. *)
Lemma cleanup_and_reraise_other (filepath other : string) (e : exn) (fs : FS) :
  other <> filepath ->
  (cleanup_and_reraise disk filepath e fs).1 !! other = fs !! other.
Proof.
  intros Hother. unfold cleanup_and_reraise, os_remove.
  destruct (is_Exception e); [|reflexivity].
  destruct (fs !! filepath); [|reflexivity].
  destruct (remove_error disk filepath) as [e'|].
  - destruct (is_OSError e'); reflexivity.
  - cbn [fst]. apply lookup_delete_ne. congruence.
Qed.

(** After the handler, the destination is gone whenever the exception of
    the body is an [Exception] and the disk does not refuse the removal. *)
Lemma cleanup_and_reraise_removes (filepath : string) (e : exn) (fs fs' : FS)
    (outcome : result unit) :
  cleanup_and_reraise disk filepath e fs = (fs', outcome) ->
  is_Exception e = true ->
  remove_error disk filepath = None ->
  fs' !! filepath = None /\ outcome = Raise e.
Proof.
  unfold cleanup_and_reraise, os_remove. intros Hrun He Hremove.
  rewrite He, Hremove in Hrun.
  destruct (fs !! filepath) eqn:Hfile.
  - injection Hrun as <- <-. split; [apply lookup_delete_eq | reflexivity].
  - cbn in Hrun. injection Hrun as <- <-. split; [assumption | reflexivity].
Qed.

(** When the disk refuses the removal with an [OSError], the handler
    swallows that error: the file stays and the exception of the body is
    raised again. *)
Lemma cleanup_and_reraise_refused (filepath : string) (e e' : exn) (fs : FS)
    (data : list byte) :
  fs !! filepath = Some data ->
  is_Exception e = true ->
  remove_error disk filepath = Some e' ->
  is_OSError e' = true ->
  cleanup_and_reraise disk filepath e fs = (fs, Raise e).
Proof.
  unfold cleanup_and_reraise, os_remove. intros -> -> -> ->. reflexivity.
Qed.

(** C9, as stated: no truncated file is ever left when an error is raised
    after bytes were written.  Two downloads that raise after 2000 bytes
    and leave these 2000 bytes at the destination: one is interrupted
    ([KeyboardInterrupt] is no [Exception], the handler does not run);
    the other loses its connection on a disk that refuses the removal
    (the handler swallows the [OSError] of [os.remove]). *)
Lemma tqdm_download_leaves_truncated_file :
  (let run := tqdm_download willing_disk
                (session_of (broken_response KeyboardInterrupt))
                "https://cdn.example.com/track/1.flac" "1.flac" [] ∅ in
   run.1.2 = 2000 /\ run.2 = Raise KeyboardInterrupt /\
   run.1.1 !! "1.flac" = Some (repeat "A"%byte 2000)) /\
  (let run := tqdm_download sticky_disk
                (session_of (broken_response (ConnectionError "reset")))
                "https://cdn.example.com/track/1.flac" "1.flac" [] ∅ in
   run.1.2 = 2000 /\ run.2 = Raise (ConnectionError "reset") /\
   run.1.1 !! "1.flac" = Some (repeat "A"%byte 2000)).
Proof. repeat split; vm_compute; reflexivity. Qed.

(** C9, amended: when [tqdm_download] ends with an exception that is an
    [Exception] after bytes have been written to the destination, and the
    disk does not refuse to remove the destination, the destination does
    not exist in the file system the caller gets back.  The exception may
    come from the connection or from a write, at any point. *)
Theorem tqdm_download_leaves_no_partial_file
    (url filepath : string) (params : list (string * string))
    (fs fs' : FS) (n : Z) (e : exn) :
  tqdm_download disk session_get url filepath params fs = (fs', n, Raise e) ->
  0 < n ->
  is_Exception e = true ->
  remove_error disk filepath = None ->
  fs' !! filepath = None.
Proof.
  unfold tqdm_download. intros Hrun Hn He Hremove.
  destruct (session_get [] url params) as [r|e0]; [|injection Hrun; lia].
  destruct (_ && _).
  - destruct (resp_json r) as [payload|]; [|injection Hrun; lia].
    destruct (json_subscript payload "error"); injection Hrun; lia.
  - destruct (open_error disk filepath) as [e0|].
    + destruct (cleanup_and_reraise disk filepath e0 fs). injection Hrun; lia.
    + destruct (iter_content r 1024) as [items fault].
      destruct (write_chunks disk filepath items 0 (open_wb filepath fs) 0)
        as [[fs1 n1] refused].
      destruct (match refused with Some e1 => Some e1 | None => fault end)
        as [e0|]; [|discriminate Hrun].
      destruct (cleanup_and_reraise disk filepath e0 fs1) as [fs2 outcome] eqn:Hclean.
      injection Hrun as <- _ ->.
      destruct (is_Exception e0) eqn:He0.
      * apply (cleanup_and_reraise_removes _ _ _ _ _ Hclean He0 Hremove).
      * unfold cleanup_and_reraise in Hclean. rewrite He0 in Hclean.
        injection Hclean as _ Heq. congruence.
Qed.

End transfer_properties.

Lemma zero_length_is_not_streamable_witness :
  DownloadStream.__init__ (session_of refused_response)
    "https://api.example.com/track/1" (Some "deezer") [] [] (IdInt 1)
    = Raise (NonStreamable None) /\
  utils.tqdm_download willing_disk (session_of refused_response)
    "https://api.example.com/track/1" "1.flac" [] ∅
    = (∅, 0, Raise (NonStreamable (Some (JStr "Track not available")))).
Proof.
  destruct (zero_length_is_not_streamable willing_disk (session_of refused_response)
              "https://api.example.com/track/1" "1.flac" (Some "deezer") [] []
              (IdInt 1) ∅ refused_response eq_refl eq_refl eq_refl)
    as [Hinit Hdl].
  split; [exact Hinit|].
  destruct (Hdl eq_refl eq_refl) as [_ Hmsg].
  apply (Hmsg (JObj [("error", JStr "Track not available")])); reflexivity.
Defined.

Lemma tqdm_download_leaves_no_partial_file_witness :
  let run := tqdm_download full_disk (session_of media_response)
               "https://e-cdns-proxy-1.dzcdn.net/media/1/abcdef" "1.mp3" [] ∅ in
  run.1.2 = 2148 /\ run.2 = Raise (OSError "No space left on device") /\
  run.1.1 !! "1.mp3" = None.
Proof.
  intros run. split; [vm_compute; reflexivity|]. split; [vm_compute; reflexivity|].
  apply (tqdm_download_leaves_no_partial_file full_disk (session_of media_response)
           "https://e-cdns-proxy-1.dzcdn.net/media/1/abcdef" "1.mp3" [] ∅ _ 2148
           (OSError "No space left on device")).
  - vm_compute. reflexivity.
  - lia.
  - reflexivity.
  - reflexivity.
Defined.

(** ** Key derivation *)

(** The test suite of RFC 1321, in part. *)
Example md5_of_empty :
  hashlib.md5_hexdigest [] = "d41d8cd98f00b204e9800998ecf8427e".
Proof. vm_compute. reflexivity. Qed.

Example md5_of_abc :
  hashlib.md5_hexdigest (list_byte_of_string "abc")
  = "900150983cd24fb0d6963f7d28e17f72".
Proof. vm_compute. reflexivity. Qed.

Example md5_of_eighty_digits :
  hashlib.md5_hexdigest
    (list_byte_of_string
       "12345678901234567890123456789012345678901234567890123456789012345678901234567890")
  = "57edf4a22be3c955ac49da2e2107b67a".
Proof. vm_compute. reflexivity. Qed.

Lemma hexdigit_ascii (n : Z) : is_ascii_code (ord (hashlib.hexdigit n)).
Proof.
  unfold hashlib.hexdigit, is_ascii_code. generalize (Z.to_nat n) as k. intros k.
  do 16 (destruct k as [|k]; [vm_compute; split; [discriminate | reflexivity]|]).
  destruct k; vm_compute; split; (discriminate || reflexivity).
Qed.

Lemma hexlify_length (bs : list byte) :
  length (hashlib.hexlify bs) = (2 * length bs)%nat.
Proof.
  induction bs as [|b bs IH]; [reflexivity|].
  unfold hashlib.hexlify in *. cbn [flat_map app length]. rewrite IH. lia.
Qed.

Lemma hexlify_ascii (bs : list byte) :
  Forall (fun c => is_ascii_code (ord c)) (hashlib.hexlify bs).
Proof.
  induction bs as [|b bs IH]; [constructor|].
  unfold hashlib.hexlify in *. cbn [flat_map app].
  constructor; [apply hexdigit_ascii|]. constructor; [apply hexdigit_ascii|].
  exact IH.
Qed.

Lemma md5_digest_length (msg : list byte) :
  length (hashlib.md5_digest msg) = 16%nat.
Proof.
  unfold hashlib.md5_digest. destruct (hashlib.md5_words msg) as [[[a b] c] d].
  reflexivity.
Qed.

Lemma md5_hexdigest_chars (msg : list byte) :
  let h := list_ascii_of_string (hashlib.md5_hexdigest msg) in
  length h = 32%nat /\ Forall (fun c => is_ascii_code (ord c)) h.
Proof.
  unfold hashlib.md5_hexdigest. cbv zeta.
  rewrite list_ascii_of_string_of_list_ascii.
  split; [|apply hexlify_ascii].
  rewrite hexlify_length, md5_digest_length. reflexivity.
Qed.

Lemma SECRET_ascii :
  Forall (fun c => is_ascii_code (ord c))
         (list_ascii_of_string DownloadStream.SECRET).
Proof.
  repeat constructor; discriminate.
Qed.

Lemma xor_of_codes_ascii (a b c : ascii) :
  is_ascii_code (ord a) -> is_ascii_code (ord b) -> is_ascii_code (ord c) ->
  is_ascii_code (xor_of_codes (a, b, c)).
Proof.
  unfold is_ascii_code, xor_of_codes. cbn [fst snd]. intros Ha Hb Hc.
  change 128 with (2 ^ 7) in *.
  apply lxor_below_pow2; [lia | | assumption].
  apply lxor_below_pow2; [lia | assumption | assumption].
Qed.

Lemma utf8_encode_ascii (cps : list Z) :
  Forall is_ascii_code cps -> utf8_encode cps = Ok (map byte_of_Z cps).
Proof.
  induction 1 as [|cp cps Hcp _ IH]; [reflexivity|].
  cbn [utf8_encode map]. unfold utf8_encode_char.
  destruct (Z.ltb_spec cp 128) as [_ | Hge]; [|unfold is_ascii_code in Hcp; lia].
  cbn [mbind result_bind]. rewrite IH. reflexivity.
Qed.

Lemma Z_of_byte_of_Z_ascii (cps : list Z) :
  Forall is_ascii_code cps -> map Z_of_byte (map byte_of_Z cps) = cps.
Proof.
  induction 1 as [|cp cps Hcp _ IH]; [reflexivity|].
  cbn [map]. rewrite IH, Z_of_byte_of_Z; [reflexivity|].
  unfold is_ascii_code in Hcp. lia.
Qed.

(** The characters built by the generator expression: [chr] accepts each
    exclusive or, which is an ASCII code. *)
Lemma joined_codes (l : list (ascii * ascii * ascii)) :
  Forall (fun t => is_ascii_code (ord t.1.1) /\ is_ascii_code (ord t.1.2) /\
                   is_ascii_code (ord t.2)) l ->
  map_result (fun t : ascii * ascii * ascii =>
                let '(a, b, c) := t in
                chr (Z.lxor (Z.lxor (ord a) (ord b)) (ord c))) l
  = Ok (map xor_of_codes l) /\
  Forall is_ascii_code (map xor_of_codes l).
Proof.
  induction 1 as [|[[a b] c] l (Ha & Hb & Hc) _ [IHr IHa]];
    [split; [reflexivity | constructor]|].
  cbn [fst snd] in Ha, Hb, Hc.
  pose proof (xor_of_codes_ascii a b c Ha Hb Hc) as Hx.
  split; [|constructor; assumption].
  cbn [map_result map]. rewrite IHr.
  change (Z.lxor (Z.lxor (ord a) (ord b)) (ord c)) with (xor_of_codes (a, b, c)).
  unfold chr, is_ascii_code in *.
  destruct (Z.leb_spec 0 (xor_of_codes (a, b, c))); [|lia].
  destruct (Z.ltb_spec (xor_of_codes (a, b, c)) 1114112); [|lia].
  reflexivity.
Qed.

Lemma Forall_zip3 {A} (P : A -> Prop) (l1 l2 l3 : list A) :
  Forall P l1 -> Forall P l2 -> Forall P l3 ->
  Forall (fun t => P t.1.1 /\ P t.1.2 /\ P t.2) (zip (zip l1 l2) l3).
Proof.
  intros H1. revert l2 l3.
  induction H1 as [|x1 l1 Hx1 _ IH]; intros l2 l3 H2 H3; [constructor|].
  destruct H2 as [|x2 l2 Hx2 H2]; [constructor|].
  destruct H3 as [|x3 l3 Hx3 H3]; [constructor|].
  cbn. constructor; [auto|]. apply IH; assumption.
Qed.

(** The key of every identifier: it is produced, it has 16 bytes, and
    they are the exclusive ors of the codes. *)
Lemma generate_blowfish_key_spec (track_id : string) :
  let md5_hash :=
    list_ascii_of_string (hashlib.md5_hexdigest (list_byte_of_string track_id)) in
  let h1 := take 16 md5_hash in
  let h2 := drop 16 md5_hash in
  length h1 = 16%nat /\ length h2 = 16%nat /\
  exists key,
    DownloadStream._generate_blowfish_key track_id = Ok key /\
    length key = 16%nat /\
    map Z_of_byte key
    = map xor_of_codes
        (zip (zip h1 h2) (list_ascii_of_string DownloadStream.SECRET)).
Proof.
  intros md5_hash h1 h2.
  destruct (md5_hexdigest_chars (list_byte_of_string track_id)) as [Hlen Hascii].
  fold md5_hash in Hlen, Hascii.
  assert (Hl1 : length h1 = 16%nat) by (unfold h1; rewrite length_take; lia).
  assert (Hl2 : length h2 = 16%nat) by (unfold h2; rewrite length_drop; lia).
  split; [exact Hl1|]. split; [exact Hl2|].
  assert (Hall : Forall (fun t => is_ascii_code (ord t.1.1) /\
                                  is_ascii_code (ord t.1.2) /\
                                  is_ascii_code (ord t.2))
                   (zip (zip h1 h2) (list_ascii_of_string DownloadStream.SECRET))).
  { apply (Forall_zip3 (fun c => is_ascii_code (ord c))).
    - apply Forall_take. exact Hascii.
    - apply Forall_drop. exact Hascii.
    - apply SECRET_ascii. }
  destruct (joined_codes _ Hall) as [Hjoin Hcodes].
  exists (map byte_of_Z
            (map xor_of_codes
               (zip (zip h1 h2) (list_ascii_of_string DownloadStream.SECRET)))).
  split; [|split].
  - unfold DownloadStream._generate_blowfish_key.
    fold md5_hash. fold h1. fold h2. rewrite Hjoin. cbn [mbind result_bind].
    apply utf8_encode_ascii. exact Hcodes.
  - rewrite !length_map, !length_zip_with, Hl1, Hl2. reflexivity.
  - apply Z_of_byte_of_Z_ascii. exact Hcodes.
Qed.

(** C2: for every item identifier the key is produced, has exactly 16
    bytes, and its byte [i] is the exclusive or of the codes of character
    [i] of the first half of the MD5 hex digest, of the second half and of
    the secret; the same identifier always gives the same key, for
    instance 3135556 gives the 16 bytes of "llfk9f,7e%u`<d49". *)
Theorem blowfish_key_is_xor_of_codes (track_id : string) :
  let md5_hash :=
    list_ascii_of_string (hashlib.md5_hexdigest (list_byte_of_string track_id)) in
  let h1 := take 16 md5_hash in
  let h2 := drop 16 md5_hash in
  length h1 = 16%nat /\ length h2 = 16%nat /\
  (exists key,
     DownloadStream._generate_blowfish_key track_id = Ok key /\
     length key = 16%nat /\
     map Z_of_byte key
     = map xor_of_codes
         (zip (zip h1 h2) (list_ascii_of_string DownloadStream.SECRET))) /\
  DownloadStream._generate_blowfish_key "3135556"
  = Ok (list_byte_of_string "llfk9f,7e%u`<d49").
Proof.
  intros md5_hash h1 h2.
  destruct (generate_blowfish_key_spec track_id) as (Hl1 & Hl2 & Hkey).
  split; [exact Hl1|]. split; [exact Hl2|]. split; [exact Hkey|].
  vm_compute. reflexivity.
Qed.

(** ** Chunk deobfuscation *)

Lemma concat_length_blocks {A} (n : nat) (bs : list (list A)) :
  Forall (fun b => length b = n) bs -> length (concat bs) = (length bs * n)%nat.
Proof.
  induction 1 as [|b bs Hb _ IH]; [reflexivity|].
  cbn [concat length]. rewrite length_app, IH, Hb. lia.
Qed.

Section cbc_properties.
Variable bs : nat.
Variable D : Cryptodome.block_fn.
Hypothesis bs_pos : (0 < bs)%nat.
Hypothesis D_length : forall key block, length block = bs -> length (D key block) = bs.

Lemma cbc_decrypt_chain_blocks (key prev : list byte) (cs : list (list byte)) :
  length prev = bs ->
  Forall (fun c => length c = bs) cs ->
  Forall (fun p => length p = bs) (Cryptodome.cbc_decrypt_chain D key prev cs) /\
  length (Cryptodome.cbc_decrypt_chain D key prev cs) = length cs.
Proof.
  intros Hprev Hcs. revert prev Hprev.
  induction Hcs as [|c cs Hc _ IH]; intros prev Hprev.
  - split; [constructor | reflexivity].
  - cbn [Cryptodome.cbc_decrypt_chain]. destruct (IH c Hc) as [Hall Hlen]. split.
    + constructor; [|exact Hall].
      rewrite xor_bytes_length; rewrite D_length by exact Hc; lia.
    + cbn [length]. rewrite Hlen. reflexivity.
Qed.

(** On data of a whole number of blocks the decryption goes through and
    gives as many bytes as it was given. *)
Lemma cbc_decrypt_whole_blocks (key_ok : nat -> bool) (key iv data : list byte)
    (k : nat) :
  key_ok (length key) = true ->
  length iv = bs ->
  length data = (k * bs)%nat ->
  Cryptodome.cbc_decrypt bs key_ok D key iv data
  = Ok (concat (Cryptodome.cbc_decrypt_chain D key iv (chunks bs data))) /\
  length (concat (Cryptodome.cbc_decrypt_chain D key iv (chunks bs data)))
  = length data.
Proof.
  intros Hkey Hiv Hdata. unfold Cryptodome.cbc_decrypt.
  rewrite Hkey, Hiv, Nat.eqb_refl, Hdata, Nat.Div0.mod_mul.
  cbn [negb Nat.eqb]. split; [reflexivity|].
  destruct (chunks_of_multiple bs bs_pos k data Hdata) as [Hall Hcat].
  destruct (cbc_decrypt_chain_blocks key iv _ Hiv Hall) as [Hall' Hlen'].
  rewrite (concat_length_blocks bs) by exact Hall'. rewrite Hlen'.
  rewrite <- (concat_length_blocks bs) by exact Hall. rewrite Hcat.
  rewrite <- Hdata. reflexivity.
Qed.

End cbc_properties.

Lemma gen_map_items_total {A B} (f : A -> result B) (R : A -> B -> Prop)
    (items : list A) (stop : option exn) :
  (forall x, exists y, f x = Ok y /\ R x y) ->
  exists ys, gen_map_items f items stop = (ys, stop) /\ Forall2 R items ys.
Proof.
  intros Hf. induction items as [|x items [ys [Hrun Hall]]].
  - exists []. split; [reflexivity | constructor].
  - destruct (Hf x) as [y [Hy HR]]. exists (y :: ys).
    cbn [gen_map_items]. rewrite Hy, Hrun. split; [reflexivity|].
    constructor; assumption.
Qed.

(** A generator expression yields at most as many items as it receives. *)
Lemma gen_map_items_length {A B} (f : A -> result B) (items : list A)
    (stop : option exn) :
  (length (gen_map_items f items stop).1 <= length items)%nat.
Proof.
  induction items as [|x items IH]; [reflexivity|].
  cbn [gen_map_items]. destruct (f x) as [y|e]; [|cbn; lia].
  destruct (gen_map_items f items stop) as [ys e]. cbn in *. lia.
Qed.

Lemma gen_map_length {A B} (f : A -> result B) (g : gen A) :
  (length (gen_map f g).1 <= length g.1)%nat.
Proof. apply gen_map_items_length. Qed.

(** C1, as stated: the activation predicate looks at the path of the
    resolved address, and without it the iteration is the identity on the
    raw chunks.  A deezer stream whose address has the marker in its query
    only: the path is "/track" and the predicate of the specification is
    false, yet the pattern is found in the address and the chunks are
    decrypted, whatever the block function; with the stand-in block
    function the bytes handed to the caller are not those received. *)
Lemma iter_decrypts_on_query_match :
  url_path (DownloadStream.url query_stream) = "/track" /\
  path_obfuscated query_stream = false /\
  is_obfuscated query_stream = true /\
  (forall D : Cryptodome.block_fn,
     DownloadStream.__iter__ D query_stream
     <> Ok (iter_content (DownloadStream.self_request query_stream) 1024)) /\
  (exists outs,
     DownloadStream.__iter__ toy_block query_stream = Ok (outs, None) /\
     length (concat outs) = 7000%nat /\
     concat outs <> resp_body (DownloadStream.self_request query_stream)).
Proof.
  split; [reflexivity|]. split; [reflexivity|].
  assert (Hobf : is_obfuscated query_stream = true) by reflexivity.
  split; [exact Hobf|]. split.
  - intros D Hsame. unfold DownloadStream.__iter__ in Hsame.
    fold (is_obfuscated query_stream) in Hsame. rewrite Hobf in Hsame.
    cbn [DownloadStream.self_id query_stream] in Hsame.
    destruct (generate_blowfish_key_spec "3135556") as (_ & _ & key & Hkey & _).
    rewrite Hkey in Hsame. cbn [mbind result_bind] in Hsame.
    injection Hsame as Hsame.
    match type of Hsame with
    | gen_map ?f ?g = _ => pose proof (gen_map_length f g) as Hle
    end.
    rewrite Hsame in Hle.
    vm_compute in Hle. lia.
  - eexists. split; [vm_compute; reflexivity|].
    split; [vm_compute; reflexivity|].
    intros Hsame. apply (f_equal (take 2)) in Hsame. vm_compute in Hsame.
    discriminate Hsame.
Qed.

Section deobfuscation.
Variable D : Cryptodome.block_fn.
Hypothesis D_length : forall key block, length block = 8%nat -> length (D key block) = 8%nat.

Lemma decrypt_item_deobfuscates (key chunk : list byte) :
  length key = 16%nat ->
  exists out, DownloadStream.decrypt_item D key chunk = Ok out /\
              deobfuscated D key chunk out.
Proof.
  intros Hkey. unfold DownloadStream.decrypt_item, deobfuscated.
  destruct (Nat.leb_spec 2048 (length chunk)) as [Hlong | Hshort].
  - assert (Htake : length (take 2048 chunk) = (256 * 8)%nat)
      by (rewrite length_take; lia).
    destruct (cbc_decrypt_whole_blocks 8 D ltac:(lia) D_length
                Cryptodome.blowfish_key_ok key fixed_iv (take 2048 chunk) 256)
      as [Hrun Hlen]; [rewrite Hkey; reflexivity | reflexivity | exact Htake |].
    unfold DownloadStream._decrypt_chunk, Cryptodome.blowfish_block_size.
    fold fixed_iv. rewrite Hrun. cbn [mbind result_bind].
    eexists. split; [reflexivity|]. split; [|lia].
    intros _. eexists. split; [reflexivity|]. split; [reflexivity|].
    split; [rewrite Hlen, Htake; reflexivity|].
    split; [reflexivity|]. apply length_drop.
  - exists chunk. split; [reflexivity|]. split; [lia|]. reflexivity.
Qed.

(** C1, amended: the activation predicate is that the source tag is
    "deezer" and the pattern occurs somewhere in the resolved address,
    query and fragment included.  On a stream for which it holds, with an
    item identifier, the iteration yields, for each received chunk of at
    least 2048 bytes, the Blowfish-CBC decryption of its first 2048 bytes
    under the derived key and the IV 0..7, computed from that chunk
    alone, followed by the other bytes unchanged, and yields each shorter
    chunk as it is; when the predicate is false the iteration is that of
    the raw chunks. *)
Theorem iter_deobfuscates_chunks (self : DownloadStream.t) :
  (is_obfuscated self = true ->
   forall track_id, DownloadStream.self_id self = Some track_id ->
   exists key outs,
     DownloadStream._generate_blowfish_key track_id = Ok key /\
     DownloadStream.__iter__ D self
     = Ok (outs, snd (iter_content (DownloadStream.self_request self) 6144)) /\
     Forall2 (deobfuscated D key)
       (fst (iter_content (DownloadStream.self_request self) 6144)) outs) /\
  (is_obfuscated self = false ->
   DownloadStream.__iter__ D self
   = Ok (iter_content (DownloadStream.self_request self) 1024)).
Proof.
  unfold is_obfuscated, DownloadStream.__iter__. split.
  - intros -> track_id ->.
    destruct (generate_blowfish_key_spec track_id) as (_ & _ & key & Hkey & Hlen & _).
    rewrite Hkey. cbn [mbind result_bind].
    destruct (gen_map_items_total (DownloadStream.decrypt_item D key)
                (deobfuscated D key)
                (fst (iter_content (DownloadStream.self_request self) 6144))
                (snd (iter_content (DownloadStream.self_request self) 6144)))
      as [outs [Hrun Hall]].
    { intros chunk. apply decrypt_item_deobfuscates. exact Hlen. }
    exists key, outs. split; [reflexivity|]. split; [|exact Hall].
    unfold gen_map. change (2048 * 3)%nat with 6144%nat. rewrite Hrun. reflexivity.
  - intros ->. reflexivity.
Qed.

(** Without an item identifier the obfuscated stream cannot be iterated:
    the [assert] fails. *)
Lemma iter_without_id (self : DownloadStream.t) :
  is_obfuscated self = true ->
  DownloadStream.self_id self = None ->
  DownloadStream.__iter__ D self = Raise AssertionError.
Proof.
  unfold is_obfuscated, DownloadStream.__iter__. intros -> ->. reflexivity.
Qed.

End deobfuscation.

Lemma iter_deobfuscates_chunks_witness :
  (exists key outs,
     DownloadStream._generate_blowfish_key "3135556" = Ok key /\
     DownloadStream.__iter__ toy_block media_stream
     = Ok (outs, snd (iter_content (DownloadStream.self_request media_stream) 6144)) /\
     Forall2 (deobfuscated toy_block key)
       (fst (iter_content (DownloadStream.self_request media_stream) 6144)) outs) /\
  DownloadStream.__iter__ toy_block plain_stream
  = Ok (iter_content (DownloadStream.self_request plain_stream) 1024).
Proof.
  split.
  - exact (proj1 (iter_deobfuscates_chunks toy_block (fun _ _ H => H) media_stream)
             eq_refl "3135556" eq_refl).
  - exact (proj2 (iter_deobfuscates_chunks toy_block (fun _ _ H => H) plain_stream)
             eq_refl).
Defined.

(** ** base64 *)

Example b64encode_hello :
  base64.b64encode (list_byte_of_string "hello") = "aGVsbG8=" /\
  base64.b64decode "aGVsbG8=" = Ok (list_byte_of_string "hello").
Proof. split; vm_compute; reflexivity. Qed.

Example master_key_is_aes256 : length master_key = 32%nat.
Proof. vm_compute. reflexivity. Qed.





(** ** Whole-file decryption *)

Lemma le_bytes_length (n : nat) (z : Z) : length (le_bytes n z) = n.
Proof.
  revert z. induction n as [|n IH]; intros z; [reflexivity|].
  cbn [le_bytes length]. rewrite IH. reflexivity.
Qed.

Lemma be_bytes_length (n : nat) (z : Z) : length (be_bytes n z) = n.
Proof.
  unfold be_bytes. rewrite length_map, length_rev. apply le_bytes_length.
Qed.

Section aes_modes.
Variables E D : Cryptodome.block_fn.
Hypothesis E_length : forall key block,
  length block = 16%nat -> length (E key block) = 16%nat.
Hypothesis D_E : forall key block,
  length block = 16%nat -> D key (E key block) = block.



Lemma ctr_keystream_length (key prefix : list byte) (counter : Z) (n : nat) :
  length prefix = 8%nat ->
  length (Cryptodome.ctr_keystream E key prefix counter n) = (n * 16)%nat.
Proof.
  intros Hprefix. revert counter.
  induction n as [|n IH]; intros counter; [reflexivity|].
  cbn [Cryptodome.ctr_keystream]. rewrite length_app, IH, E_length; [lia|].
  rewrite length_app, be_bytes_length, Hprefix. reflexivity.
Qed.


End aes_modes.

Lemma master_key_decoded :
  base64.b64decode master_key_b64 = Ok master_key /\
  Cryptodome.aes_key_ok (length master_key) = true.
Proof. split; vm_compute; reflexivity. Qed.

Section post_decryption_properties.
Variables E D : Cryptodome.block_fn.
Hypothesis E_length : forall key block,
  length block = 16%nat -> length (E key block) = 16%nat.
Hypothesis D_E : forall key block,
  length block = 16%nat -> D key (E key block) = block.



End post_decryption_properties.


(* ===================================================================== *)
(** * Part III: further properties of the code                            *)
(* ===================================================================== *)

(** ** Quality resolution *)

(** X1: the extension and the container of a quality and a provider
    always go together: ".flac" with "FLAC", ".m4a" with "AAC", ".mp3"
    with "MP3". *)
Theorem ext_agrees_with_get_container (quality : Z) (source : string) :
  (ext quality source = ".flac" <-> get_container quality source = "FLAC") /\
  (ext quality source = ".m4a" <-> get_container quality source = "AAC") /\
  (ext quality source = ".mp3" <-> get_container quality source = "MP3").
Proof.
  unfold ext, get_container. rewrite Z.geb_leb.
  destruct (Z.leb_spec quality 1); destruct (Z.leb_spec 2 quality); try lia;
    destruct (String.eqb source "tidal");
    repeat split; intros; (reflexivity || discriminate).
Qed.

(** X2: every id that [get_quality_id] derives lies in 1..4 and has a
    qobuz code; deezer has a code for it exactly when it is at most 2 and
    tidal exactly when it is at most 3: the lookup of a 24-bit quality
    fails with [KeyError] for deezer, and above 96 kHz for tidal too. *)
Theorem derived_id_by_provider (bit_depth sampling_rate : option Z) (id : Z) :
  get_quality_id bit_depth sampling_rate = Some id ->
  1 <= id <= 4 /\
  (exists code, get_quality id "qobuz" = Ok code) /\
  (if id <=? 2 then exists code, get_quality id "deezer" = Ok code
   else get_quality id "deezer" = Raise (KeyError (KInt id))) /\
  (if id <=? 3 then exists code, get_quality id "tidal" = Ok code
   else get_quality id "tidal" = Raise (KeyError (KInt id))).
Proof.
  intros Hid.
  assert (Hcases : id = 1 \/ id = 2 \/ id = 3 \/ id = 4).
  { unfold get_quality_id in Hid.
    destruct bit_depth as [bd|], sampling_rate as [sr|];
      try (injection Hid as <-; auto).
    destruct (bd =? 16); [injection Hid as <-; auto|].
    destruct (bd =? 24); [|discriminate].
    destruct (sr <=? 96); injection Hid as <-; auto. }
  rewrite get_quality_qobuz, get_quality_deezer, get_quality_tidal.
  destruct Hcases as [-> | [-> | [-> | ->]]]; cbn;
    (split; [lia|]); repeat split; eauto.
Qed.

Lemma derived_id_by_provider_witness :
  get_quality 4 "tidal" = Raise (KeyError (KInt 4)) /\
  get_quality 4 "deezer" = Raise (KeyError (KInt 4)) /\
  exists code, get_quality 4 "qobuz" = Ok code.
Proof.
  destruct (derived_id_by_provider (Some 24) (Some 192) 4 eq_refl)
    as (_ & Hq & Hd & Ht).
  split; [exact Ht|]. split; [exact Hd | exact Hq].
Defined.

(** X3: the two copies of [get_quality_id] return the same id whenever
    the one of utils.py returns one, and the one of metadata.py raises
    exactly where the other returns [None]. *)
Theorem get_quality_id_copies_agree (bit_depth sampling_rate : option Z) :
  (forall id, get_quality_id bit_depth sampling_rate = Some id <->
              metadata.get_quality_id bit_depth sampling_rate = Ok id) /\
  (get_quality_id bit_depth sampling_rate = None <->
   exists msg, metadata.get_quality_id bit_depth sampling_rate
               = Raise (GenericException msg)).
Proof.
  unfold get_quality_id, metadata.get_quality_id.
  destruct bit_depth as [bd|], sampling_rate as [sr|];
    try (split; [intros id; split; intros H; injection H as <-; reflexivity
                | split; [discriminate | intros [msg H]; discriminate H]]).
  destruct (bd =? 16);
    [split; [intros id; split; intros H; injection H as <-; reflexivity
            | split; [discriminate | intros [msg H]; discriminate H]]|].
  destruct (bd =? 24).
  - destruct (sr <=? 96);
      (split; [intros id; split; intros H; injection H as <-; reflexivity
              | split; [discriminate | intros [msg H]; discriminate H]]).
  - split; [intros id; split; discriminate|].
    split; [intros _; eexists; reflexivity | reflexivity].
Qed.

(** X4: the stats of a quality id, given back to [get_quality_id], give
    1 for the ids up to 1, 2 for 2, and 4 for both 3 and 4: the stats are
    in Hz and the threshold 96 of [get_quality_id] is never met by them. *)
Theorem get_quality_id_of_stats (quality_id : Z) (bit_depth sampling_rate : option Z) :
  get_stats_from_quality quality_id = Ok (bit_depth, sampling_rate) ->
  get_quality_id bit_depth sampling_rate
  = Some (if quality_id <=? 1 then 1 else if quality_id =? 2 then 2 else 4).
Proof.
  unfold get_stats_from_quality.
  destruct (quality_id <=? 1); [intros H; injection H as <- <-; reflexivity|].
  destruct (quality_id =? 2); [intros H; injection H as <- <-; reflexivity|].
  destruct (quality_id =? 3); [intros H; injection H as <- <-; reflexivity|].
  destruct (quality_id =? 4); [intros H; injection H as <- <-; reflexivity|].
  discriminate.
Qed.

Lemma get_quality_id_of_stats_witness :
  get_quality_id (Some 24) (Some 96000) = Some 4.
Proof.
  exact (get_quality_id_of_stats 3 (Some 24) (Some 96000) eq_refl).
Defined.

(** ** Downloads *)

Section download_properties.
Variable disk : Disk.
Variable session_get :
  list (string * string) -> string -> list (string * string) -> result Response.

(** The file that the loop leaves when the disk refuses no write. *)
Lemma written_file (filepath : string) (data : list byte) (fs : FS) :
  (forall j, write_error disk j = None) ->
  write_chunks disk filepath (chunks 1024 data) 0 (open_wb filepath fs) 0
  = (<[filepath := data]> fs, Z.of_nat (length data), None).
Proof.
  intros Hwrite. rewrite (write_chunks_spec disk) by exact Hwrite.
  pose proof (concat_chunks 1024 ltac:(lia) data) as Hcat.
  rewrite Hcat. f_equal. f_equal.
  destruct (chunks 1024 data) as [|c cs].
  - simpl in Hcat. subst data. reflexivity.
  - unfold open_wb. rewrite lookup_insert_eq, insert_insert_eq. reflexivity.
Qed.

(** What [tqdm_download] does once the size check is passed, on a disk
    that lets the destination be opened and written. *)
Lemma tqdm_download_transfer (url filepath : string)
    (params : list (string * string)) (fs : FS) (r : Response) :
  session_get [] url params = Ok r ->
  too_small url r = false ->
  open_error disk filepath = None ->
  (forall j, write_error disk j = None) ->
  tqdm_download disk session_get url filepath params fs
  = match resp_fault r with
    | None =>
        (<[filepath := resp_body r]> fs, Z.of_nat (length (resp_body r)), Ok tt)
    | Some (k, e) =>
        let '(fs', outcome) :=
          cleanup_and_reraise disk filepath e
            (<[filepath := take k (resp_body r)]> fs) in
        (fs', Z.of_nat (length (take k (resp_body r))), outcome)
    end.
Proof.
  intros Hget Hgate Hopen Hwrite. unfold tqdm_download. rewrite Hget.
  unfold too_small in Hgate. rewrite Hgate, Hopen. unfold iter_content.
  destruct (resp_fault r) as [[k e]|]; rewrite written_file by exact Hwrite;
    reflexivity.
Qed.

(** A destination that cannot be opened: the handler runs on the file
    system as it was, and no byte is written. *)
Lemma tqdm_download_open_refused (url filepath : string)
    (params : list (string * string)) (fs : FS) (r : Response) (e : exn) :
  session_get [] url params = Ok r ->
  too_small url r = false ->
  open_error disk filepath = Some e ->
  tqdm_download disk session_get url filepath params fs
  = ((cleanup_and_reraise disk filepath e fs).1, 0,
     (cleanup_and_reraise disk filepath e fs).2).
Proof.
  intros Hget Hgate Hopen. unfold tqdm_download. rewrite Hget.
  unfold too_small in Hgate. rewrite Hgate, Hopen.
  destruct (cleanup_and_reraise disk filepath e fs). reflexivity.
Qed.


(** X6: whatever its outcome, [tqdm_download] changes no file other than
    the destination. *)
Theorem tqdm_download_touches_only_destination (url filepath other : string)
    (params : list (string * string)) (fs fs' : FS) (n : Z) (outcome : result unit) :
  tqdm_download disk session_get url filepath params fs = (fs', n, outcome) ->
  other <> filepath ->
  fs' !! other = fs !! other.
Proof.
  intros Hrun Hother. unfold tqdm_download in Hrun.
  destruct (session_get [] url params) as [r|e];
    [|injection Hrun as <- _ _; reflexivity].
  destruct (_ && _).
  - destruct (resp_json r) as [payload|]; [|injection Hrun as <- _ _; reflexivity].
    destruct (json_subscript payload "error"); injection Hrun as <- _ _; reflexivity.
  - destruct (open_error disk filepath) as [e0|].
    + pose proof (cleanup_and_reraise_other disk filepath other e0 fs Hother) as Hc.
      destruct (cleanup_and_reraise disk filepath e0 fs) as [fs1 o].
      injection Hrun as <- _ _. exact Hc.
    + destruct (iter_content r 1024) as [items fault].
      pose proof (write_chunks_other disk filepath other items 0
                    (open_wb filepath fs) 0 Hother) as Hw.
      destruct (write_chunks disk filepath items 0 (open_wb filepath fs) 0)
        as [[fs1 n1] refused].
      cbn [fst] in Hw. unfold open_wb in Hw.
      rewrite lookup_insert_ne in Hw by congruence.
      destruct (match refused with Some e1 => Some e1 | None => fault end) as [e0|].
      * pose proof (cleanup_and_reraise_other disk filepath other e0 fs1 Hother) as Hc.
        destruct (cleanup_and_reraise disk filepath e0 fs1) as [fs2 o].
        injection Hrun as <- _ _. cbn [fst] in Hc. rewrite Hc. exact Hw.
      * injection Hrun as <- _ _. exact Hw.
Qed.

(** X7: when the connection breaks with an [Exception] after the size
    check, at whatever point, on a disk that lets the destination be
    opened and written, the exception of the connection is the one
    raised, and: if the disk lets the destination be removed, the
    destination does not exist afterwards (a file that was there before
    the download is lost too, also when not one byte had arrived); if the
    disk refuses the removal with an [OSError], the bytes delivered so
    far stay at the destination. *)
Theorem tqdm_download_failure_removes_destination (url filepath : string)
    (params : list (string * string)) (fs : FS) (r : Response) (k : nat) (e : exn) :
  session_get [] url params = Ok r ->
  too_small url r = false ->
  open_error disk filepath = None ->
  (forall j, write_error disk j = None) ->
  resp_fault r = Some (k, e) ->
  is_Exception e = true ->
  (remove_error disk filepath = None ->
   tqdm_download disk session_get url filepath params fs
   = (delete filepath fs, Z.of_nat (length (delivered r)), Raise e)) /\
  (forall e', remove_error disk filepath = Some e' -> is_OSError e' = true ->
   tqdm_download disk session_get url filepath params fs
   = (<[filepath := delivered r]> fs, Z.of_nat (length (delivered r)), Raise e)).
Proof.
  intros Hget Hgate Hopen Hwrite Hfault He.
  rewrite (tqdm_download_transfer url filepath params fs r Hget Hgate Hopen Hwrite).
  unfold delivered. rewrite Hfault. split.
  - intros Hremove. unfold cleanup_and_reraise, os_remove.
    rewrite He, lookup_insert_eq, Hremove, delete_insert_eq. reflexivity.
  - intros e' Hremove He'.
    rewrite (cleanup_and_reraise_refused disk filepath e e' _ (take k (resp_body r)));
      [reflexivity | apply lookup_insert_eq | exact He | exact Hremove | exact He'].
Qed.

(** X8: a response that fails the size check is never written and never
    accepted: the destination is not opened, and the call raises
    [NonStreamable] with "Resource not found." for a body that is not
    JSON, [NonStreamable] with the "error" entry of a JSON object that has
    one, [KeyError] for a JSON object without that entry, and [TypeError]
    for JSON that is no object. *)
Theorem tqdm_download_small_response (url filepath : string)
    (params : list (string * string)) (fs : FS) (r : Response) :
  session_get [] url params = Ok r ->
  too_small url r = true ->
  exists e,
    tqdm_download disk session_get url filepath params fs = (fs, 0, Raise e) /\
    match resp_json r with
    | None => e = NonStreamable (Some (JStr "Resource not found."))
    | Some (JObj fields) =>
        e = match json_field "error" fields with
            | Some message => NonStreamable (Some message)
            | None => KeyError (KStr "error")
            end
    | Some _ => exists msg, e = TypeError msg
    end.
Proof.
  intros Hget Hgate. unfold tqdm_download. rewrite Hget.
  unfold too_small in Hgate. rewrite Hgate.
  destruct (resp_json r) as [payload|]; [|eexists; split; reflexivity].
  destruct payload as [|b|n|s0|items|fields]; cbn [json_subscript];
    try (eexists; split; [reflexivity | eexists; reflexivity]).
  destruct (json_field "error" fields); eexists; split; reflexivity.
Qed.

(** What a successful construction leaves in the object. *)
Lemma download_stream_init_fields (url : string) (source : option string)
    (params headers : list (string * string)) (item_id : item_id_arg)
    (self : DownloadStream.t) :
  DownloadStream.__init__ session_get url source params headers item_id = Ok self ->
  session_get headers url params = Ok (DownloadStream.self_request self) /\
  content_length (DownloadStream.self_request self)
  = Some (DownloadStream.__len__ self) /\
  DownloadStream.__len__ self <> 0 /\
  DownloadStream.self_source self = source /\
  DownloadStream.self_id self
  = match item_id with
    | IdNone => None
    | IdStr s => Some s
    | IdInt n => Some (pretty n)
    end.
Proof.
  unfold DownloadStream.__init__. intros Hinit.
  destruct (session_get headers url params) as [r|e]; [|discriminate Hinit].
  cbn [mbind result_bind] in Hinit.
  destruct (Z.eqb_spec (default 0 (content_length r)) 0) as [Hz | Hnz];
    [discriminate Hinit|].
  injection Hinit as <-. cbn.
  destruct (content_length r) as [len|]; [|contradiction].
  repeat split; try reflexivity. exact Hnz.
Qed.

(** X9: a [DownloadStream] that is constructed holds the response of the
    session, its length is the declared content length and is never 0 (a
    response without the header is refused like an empty one), and an
    integer identifier is kept as its decimal text. *)
Theorem download_stream_init_ok (url : string) (source : option string)
    (params headers : list (string * string)) (item_id : item_id_arg)
    (self : DownloadStream.t) :
  DownloadStream.__init__ session_get url source params headers item_id = Ok self ->
  session_get headers url params = Ok (DownloadStream.self_request self) /\
  content_length (DownloadStream.self_request self)
  = Some (DownloadStream.__len__ self) /\
  DownloadStream.__len__ self <> 0 /\
  DownloadStream.self_source self = source /\
  DownloadStream.self_id self
  = match item_id with
    | IdNone => None
    | IdStr s => Some s
    | IdInt n => Some (pretty n)
    end.
Proof. apply download_stream_init_fields. Qed.

End download_properties.


(** The destination of a download into a directory that does not exist
    cannot be opened: the call raises the error of [open] and writes
    nothing. *)
Lemma tqdm_download_into_missing_directory :
  tqdm_download sparse_disk (session_of media_response)
    "https://e-cdns-proxy-1.dzcdn.net/media/1/abcdef" "nodir/1.mp3" [] ∅
  = (∅, 0, Raise (FileNotFoundError "nodir/1.mp3")).
Proof.
  rewrite (tqdm_download_open_refused sparse_disk (session_of media_response)
             "https://e-cdns-proxy-1.dzcdn.net/media/1/abcdef" "nodir/1.mp3" [] ∅
             media_response (FileNotFoundError "nodir/1.mp3") eq_refl eq_refl eq_refl).
  reflexivity.
Qed.

Lemma tqdm_download_touches_only_destination_witness :
  (tqdm_download full_disk (session_of media_response)
     "https://e-cdns-proxy-1.dzcdn.net/media/1/abcdef" "1.mp3" []
     {[ "cover.jpg" := [x01] ]}).1.1 !! "cover.jpg"
  = Some [x01].
Proof.
  refine (tqdm_download_touches_only_destination full_disk
            (session_of media_response)
            "https://e-cdns-proxy-1.dzcdn.net/media/1/abcdef" "1.mp3" "cover.jpg" []
            {[ "cover.jpg" := [x01] ]} _ 2148
            (Raise (OSError "No space left on device")) _ _).
  - vm_compute. reflexivity.
  - discriminate.
Defined.

Lemma tqdm_download_failure_removes_destination_witness :
  tqdm_download willing_disk (session_of (broken_response (ConnectionError "reset")))
    "https://cdn.example.com/track/1.flac" "1.flac" [] {[ "1.flac" := [x00] ]}
  = (delete "1.flac" {[ "1.flac" := [x00] ]},
     Z.of_nat (length (delivered (broken_response (ConnectionError "reset")))),
     Raise (ConnectionError "reset")) /\
  tqdm_download sticky_disk (session_of (broken_response (ConnectionError "reset")))
    "https://cdn.example.com/track/1.flac" "1.flac" [] {[ "1.flac" := [x00] ]}
  = (<[ "1.flac" := delivered (broken_response (ConnectionError "reset")) ]>
       {[ "1.flac" := [x00] ]},
     Z.of_nat (length (delivered (broken_response (ConnectionError "reset")))),
     Raise (ConnectionError "reset")).
Proof.
  split.
  - exact (proj1 (tqdm_download_failure_removes_destination willing_disk
             (session_of (broken_response (ConnectionError "reset")))
             "https://cdn.example.com/track/1.flac" "1.flac" []
             {[ "1.flac" := [x00] ]} (broken_response (ConnectionError "reset"))
             2000 (ConnectionError "reset") eq_refl eq_refl eq_refl
             (fun _ => eq_refl) eq_refl eq_refl) eq_refl).
  - exact (proj2 (tqdm_download_failure_removes_destination sticky_disk
             (session_of (broken_response (ConnectionError "reset")))
             "https://cdn.example.com/track/1.flac" "1.flac" []
             {[ "1.flac" := [x00] ]} (broken_response (ConnectionError "reset"))
             2000 (ConnectionError "reset") eq_refl eq_refl eq_refl
             (fun _ => eq_refl) eq_refl eq_refl)
             (OSError "Operation not permitted") eq_refl eq_refl).
Defined.

Lemma tqdm_download_small_response_witness :
  exists e,
    tqdm_download willing_disk (session_of refused_response)
      "https://api.example.com/track/1" "1.flac" [] ∅ = (∅, 0, Raise e) /\
    e = NonStreamable (Some (JStr "Track not available")).
Proof.
  exact (tqdm_download_small_response willing_disk (session_of refused_response)
           "https://api.example.com/track/1" "1.flac" [] ∅ refused_response
           eq_refl eq_refl).
Defined.

Lemma download_stream_init_ok_witness :
  DownloadStream.__len__ media_stream <> 0 /\
  DownloadStream.self_id media_stream = Some "3135556".
Proof.
  destruct (download_stream_init_ok (session_of media_response)
              "https://www.deezer.com/track/3135556" (Some "deezer") [] []
              (IdInt 3135556) media_stream eq_refl)
    as (_ & _ & Hlen & _ & Hid).
  split; [exact Hlen | exact Hid].
Defined.

(** ** Progress of a stream *)

Lemma fold_chunk_lengths (items : list (list byte)) (n : Z) :
  fold_left (fun n chunk => n + Z.of_nat (length chunk)) items n
  = n + Z.of_nat (length (concat items)).
Proof.
  revert n. induction items as [|c items IH]; intros n; [simpl; lia|].
  cbn [fold_left concat]. rewrite IH, length_app. lia.
Qed.

Lemma deobfuscated_length (D : Cryptodome.block_fn) (key chunk out : list byte) :
  deobfuscated D key chunk out -> length out = length chunk.
Proof.
  intros [Hlong Hshort].
  destruct (Nat.le_gt_cases 2048 (length chunk)) as [Hge | Hlt].
  - destruct (Hlong Hge) as (plain & _ & _ & Hplain & -> & Hrest).
    rewrite length_app, Hplain, Hrest. lia.
  - rewrite (Hshort Hlt). reflexivity.
Qed.

Lemma Forall2_concat_length {A B} (R : list A -> list B -> Prop)
    (xs : list (list A)) (ys : list (list B)) :
  (forall x y, R x y -> length y = length x) ->
  Forall2 R xs ys -> length (concat ys) = length (concat xs).
Proof.
  intros HR. induction 1 as [|x y xs ys Hxy _ IH]; [reflexivity|].
  cbn [concat]. rewrite !length_app, IH, (HR x y Hxy). reflexivity.
Qed.

Lemma iter_content_delivered (r : Response) (n : nat) :
  (0 < n)%nat ->
  concat (iter_content r n).1 = delivered r /\
  (iter_content r n).2 = snd <$> resp_fault r.
Proof.
  intros Hn. unfold iter_content, delivered.
  destruct (resp_fault r) as [[k e]|]; cbn [fst snd fmap option_fmap option_map];
    (split; [apply concat_chunks; exact Hn | reflexivity]).
Qed.

Section progress_properties.
Variable D : Cryptodome.block_fn.
Hypothesis D_length : forall key block, length block = 8%nat -> length (D key block) = 8%nat.

(** The bytes yielded and counted by [tqdm_stream]. *)
Lemma tqdm_stream_delivered (self : DownloadStream.t) :
  0 <= DownloadStream.__len__ self ->
  (is_obfuscated self = true -> is_Some (DownloadStream.self_id self)) ->
  (tqdm_stream D self).2
  = (DownloadStream.__len__ self,
     Z.of_nat (length (delivered (DownloadStream.self_request self)))) /\
  length (concat (tqdm_stream D self).1.1)
  = length (delivered (DownloadStream.self_request self)) /\
  (tqdm_stream D self).1.2 = snd <$> resp_fault (DownloadStream.self_request self).
Proof.
  intros Hlen Hid. unfold tqdm_stream.
  destruct (Z.ltb_spec (DownloadStream.__len__ self) 0) as [Hneg | _]; [lia|].
  unfold DownloadStream.__iter__. fold (is_obfuscated self).
  destruct (is_obfuscated self) eqn:Hobf.
  - destruct (Hid eq_refl) as [track_id Htrack]. rewrite Htrack.
    destruct (generate_blowfish_key_spec track_id) as (_ & _ & key & Hkey & Hklen & _).
    rewrite Hkey. cbn [mbind result_bind].
    destruct (iter_content_delivered (DownloadStream.self_request self) (2048 * 3)
                ltac:(lia)) as [Hcat Hstop].
    destruct (gen_map_items_total (DownloadStream.decrypt_item D key)
                (deobfuscated D key)
                (iter_content (DownloadStream.self_request self) (2048 * 3)).1
                (iter_content (DownloadStream.self_request self) (2048 * 3)).2)
      as [outs [Hrun Hall]].
    { intros chunk. apply decrypt_item_deobfuscates; assumption. }
    unfold gen_map. rewrite Hrun. cbn [fst snd].
    assert (Houts : length (concat outs)
                    = length (delivered (DownloadStream.self_request self))).
    { rewrite <- Hcat.
      apply (Forall2_concat_length (deobfuscated D key)); [|exact Hall].
      intros x y. apply deobfuscated_length. }
    rewrite fold_chunk_lengths, Houts.
    split; [f_equal; lia|]. split; [reflexivity | exact Hstop].
  - destruct (iter_content_delivered (DownloadStream.self_request self) 1024
                ltac:(lia)) as [Hcat Hstop].
    destruct (iter_content (DownloadStream.self_request self) 1024) as [items stop].
    cbn [fst snd] in *. rewrite fold_chunk_lengths, Hcat.
    split; [f_equal; lia|]. split; [reflexivity | exact Hstop].
Qed.

(** X10: [tqdm_stream] over a stream whose length is not negative and
    fits an index (it is below 2^63, so that [len] accepts it), with an
    item identifier when it is obfuscated, yields as many bytes as the
    response delivers, deobfuscated or not, counts exactly these bytes on
    the bar, whose total is the length of the stream, and ends as the
    connection ends. *)
Theorem tqdm_stream_counts_delivered (self : DownloadStream.t) :
  0 <= DownloadStream.__len__ self < 2 ^ 63 ->
  (is_obfuscated self = true -> is_Some (DownloadStream.self_id self)) ->
  (tqdm_stream D self).2
  = (DownloadStream.__len__ self,
     Z.of_nat (length (delivered (DownloadStream.self_request self)))) /\
  length (concat (tqdm_stream D self).1.1)
  = length (delivered (DownloadStream.self_request self)) /\
  (tqdm_stream D self).1.2 = snd <$> resp_fault (DownloadStream.self_request self).
Proof. intros [Hlen _]. apply tqdm_stream_delivered. exact Hlen. Qed.

(** X28: a stream constructed from a response whose declared content
    length is the length of its body and whose connection does not break,
    iterated through [tqdm_stream] (with an item identifier when it is
    obfuscated), fills the progress bar exactly: the count at the end is
    the total, and as many bytes have been yielded. *)
Theorem stream_progress_completes
    (session_get : list (string * string) -> string -> list (string * string)
                   -> result Response)
    (url : string) (source : option string)
    (params headers : list (string * string)) (item_id : item_id_arg)
    (self : DownloadStream.t) :
  DownloadStream.__init__ session_get url source params headers item_id = Ok self ->
  resp_fault (DownloadStream.self_request self) = None ->
  content_length (DownloadStream.self_request self)
  = Some (Z.of_nat (length (resp_body (DownloadStream.self_request self)))) ->
  (is_obfuscated self = true -> item_id <> IdNone) ->
  (tqdm_stream D self).2
  = (Z.of_nat (length (resp_body (DownloadStream.self_request self))),
     Z.of_nat (length (resp_body (DownloadStream.self_request self)))) /\
  length (concat (tqdm_stream D self).1.1)
  = length (resp_body (DownloadStream.self_request self)) /\
  (tqdm_stream D self).1.2 = None.
Proof.
  intros Hinit Hfault Hlen Hid.
  destruct (download_stream_init_fields session_get url source params headers
              item_id self Hinit) as (_ & Hlen' & _ & _ & Hself_id).
  rewrite Hlen in Hlen'. injection Hlen' as Hlen'.
  destruct (tqdm_stream_delivered self) as (Hbar & Hbytes & Hstop).
  - rewrite <- Hlen'. lia.
  - intros Hobf. rewrite Hself_id. specialize (Hid Hobf).
    destruct item_id; [contradiction | eauto | eauto].
  - unfold delivered in Hbar, Hbytes. rewrite Hfault in Hbar, Hbytes, Hstop.
    rewrite Hbar, Hbytes, Hstop, <- Hlen'. repeat split; reflexivity.
Qed.

End progress_properties.

Lemma tqdm_stream_counts_delivered_witness :
  (tqdm_stream toy_block media_stream).2 = (7000, 7000) /\
  length (concat (tqdm_stream toy_block media_stream).1.1) = 7000%nat.
Proof.
  destruct (tqdm_stream_counts_delivered toy_block (fun _ _ H => H) media_stream)
    as (Hbar & Hbytes & _).
  - vm_compute. split; [discriminate | reflexivity].
  - intros _. eexists. reflexivity.
  - split; [rewrite Hbar | rewrite Hbytes]; vm_compute; reflexivity.
Defined.

(** ** Whole-file decryption, further *)


Section post_decryption_further.
Variables E D : Cryptodome.block_fn.
Hypothesis E_length : forall key block,
  length block = 16%nat -> length (E key block) = 16%nat.

Lemma ctr_crypt_length (key prefix data out : list byte) :
  Cryptodome.ctr_crypt Cryptodome.aes_block_size Cryptodome.aes_key_ok E
    key prefix data = Ok out ->
  length out = length data.
Proof.
  unfold Cryptodome.ctr_crypt, Cryptodome.ctr_new, Cryptodome.aes_block_size.
  destruct (negb (Cryptodome.aes_key_ok (length key))); [discriminate|].
  destruct (Nat.eqb_spec (length prefix + 8) 16) as [Hprefix | Hprefix];
    [|discriminate].
  cbn [negb mbind result_bind].
  set (nblocks := ((length data + (16 - 1)) / 16)%nat).
  destruct (2 ^ 64 <? _); [discriminate|].
  intros Hout. injection Hout as <-.
  apply xor_bytes_length. rewrite (ctr_keystream_length E E_length) by lia.
  unfold nblocks.
  pose proof (Nat.div_mod_eq (length data + (16 - 1)) 16).
  pose proof (Nat.mod_upper_bound (length data + (16 - 1)) 16). lia.
Qed.


End post_decryption_further.


Lemma mod16_shift (n : nat) :
  (16 <= n)%nat -> ((n - 16) mod 16 = n mod 16)%nat.
Proof.
  intros Hn. replace n with ((n - 16) + 1 * 16)%nat at 2 by lia.
  rewrite Nat.Div0.mod_add. reflexivity.
Qed.

Section token_properties.
Variable D : Cryptodome.block_fn.
Hypothesis D_length : forall key block,
  length block = 16%nat -> length (D key block) = 16%nat.

(** X13: a token that decodes from base64 is accepted exactly when it
    has at least 48 bytes and a whole number of 16-byte blocks, whatever
    the bytes are; any other length is refused with [ValueError] before
    the input file is looked at. *)
Theorem unwrap_token_by_length (token : string) (t : list byte) :
  base64.b64decode token = Ok t ->
  ((exists kn, unwrap_token D token = Ok kn) <->
   (48 <= length t)%nat /\ (length t mod 16 = 0)%nat) /\
  (forall e, unwrap_token D token = Raise e -> exists msg, e = ValueError msg).
Proof.
  intros Ht. destruct master_key_decoded as [Hm Hmok].
  unfold unwrap_token. rewrite Hm, Ht. cbn [mbind result_bind].
  unfold Cryptodome.cbc_decrypt, Cryptodome.aes_block_size.
  rewrite Hmok. cbn [negb].
  destruct (Nat.eqb_spec (length (take 16 t)) 16) as [Hiv | Hiv]; cbn [negb].
  2: { rewrite length_take in Hiv. split.
       - split; [intros [kn H]; discriminate H | intros [H48 _]; lia].
       - intros e H. injection H as <-. eauto. }
  rewrite length_take in Hiv.
  assert (Hlen : (16 <= length t)%nat) by lia.
  destruct (Nat.eqb_spec (length (drop 16 t) mod 16) 0) as [Hmod | Hmod];
    cbn [negb].
  2: { rewrite length_drop, mod16_shift in Hmod by exact Hlen. split.
       - split; [intros [kn H]; discriminate H | intros [_ H16]; contradiction].
       - intros e H. injection H as <-. eauto. }
  assert (Hk : length (drop 16 t) = (length (drop 16 t) / 16 * 16)%nat).
  { apply Nat.Div0.div_exact in Hmod. lia. }
  destruct (cbc_decrypt_whole_blocks 16 D ltac:(lia) D_length
              Cryptodome.aes_key_ok master_key (take 16 t) (drop 16 t) _
              Hmok ltac:(rewrite length_take; lia) Hk) as [_ Hdec].
  set (dec := concat (Cryptodome.cbc_decrypt_chain D master_key (take 16 t)
                        (chunks 16 (drop 16 t)))) in *.
  cbn [mbind result_bind].
  rewrite length_drop, mod16_shift in Hmod by exact Hlen.
  rewrite length_drop in Hdec.
  unfold Cryptodome.ctr_new, Cryptodome.aes_block_size, Cryptodome.aes_key_ok.
  rewrite !length_take, length_drop, Hdec.
  destruct (Nat.le_gt_cases 48 (length t)) as [H48 | H48].
  - replace (16 `min` (length t - 16))%nat with 16%nat by lia.
    replace (8 `min` (length t - 16 - 16) + 8)%nat with 16%nat by lia.
    cbn. split; [split; [intros _; split; assumption | intros _; eauto]|].
    intros e H. discriminate H.
  - assert (Hcases : length t = 16%nat \/ length t = 32%nat).
    { apply Nat.Div0.div_exact in Hmod. lia. }
    destruct Hcases as [-> | ->]; cbn.
    + split; [split; [intros [kn H]; discriminate H | intros [H _]; lia]|].
      intros e H. injection H as <-. eauto.
    + split; [split; [intros [kn H]; discriminate H | intros [H _]; lia]|].
      intros e H. injection H as <-. eauto.
Qed.

End token_properties.

Lemma unwrap_token_by_length_witness :
  exists kn, unwrap_token toy_block sample_token = Ok kn.
Proof.
  destruct (unwrap_token_by_length toy_block (fun _ _ H => H) sample_token
              (match base64.b64decode sample_token with
               | Ok t => t
               | Raise _ => []
               end))
    as [[_ Hok] _].
  - vm_compute. reflexivity.
  - apply Hok. split; [vm_compute; lia | reflexivity].
Defined.

(** ** Nested lookups *)

Lemma descend_through_dict (v : json) (keys : list string) (w : json) :
  keys <> [] -> descend v keys = Some w -> exists fields, v = JObj fields.
Proof.
  intros Hkeys Hd. destruct keys as [|k rest]; [contradiction|].
  destruct v; try discriminate Hd. eauto.
Qed.

Section safe_get_properties.
Variable py_eq : json -> json -> bool.
Variable default : json.
Hypothesis default_no_dict : forall fields, py_eq (JObj fields) default = false.

(** The loop walks down the dictionaries of a path. *)
Lemma safe_get_loop_descend (pre : list string) (k : string) (post : list string)
    (curr res : json) (fields : list (string * json)) :
  descend curr pre = Some (JObj fields) ->
  safe_get_loop py_eq curr res (pre ++ k :: post) default
  = safe_get_loop py_eq (JObj fields) (JObj fields) (k :: post) default.
Proof.
  revert curr res. induction pre as [|p pre IH]; intros curr res Hd.
  - injection Hd as ->. reflexivity.
  - cbn [descend] in Hd. destruct curr as [| | | | |f0]; try discriminate Hd.
    destruct (json_field p f0) as [w|] eqn:Hp; [|discriminate Hd].
    assert (Hw : exists fw, w = JObj fw).
    { destruct pre as [|q pre'].
      - injection Hd as ->. eauto.
      - apply (descend_through_dict w (q :: pre') (JObj fields)); [discriminate|exact Hd]. }
    destruct Hw as [fw ->].
    cbn [app safe_get_loop dict_get]. rewrite Hp.
    cbn [from_option mbind outcome_bind hasattr_getitem negb].
    rewrite default_no_dict. cbn [orb]. apply IH. exact Hd.
Qed.

(** X14: when every key of a non-empty path is present and the default
    is equal to no dictionary, [safe_get] of utils.py returns the value
    at the end of the path. *)
Theorem safe_get_finds_nested (d : json) (keys : list string) (v : json) :
  keys <> [] ->
  descend d keys = Some v ->
  utils.safe_get py_eq d keys default = Return v.
Proof.
  intros Hkeys Hd. unfold utils.safe_get.
  destruct (exists_last Hkeys) as [pre [k ->]].
  assert (Hpre : exists fields, descend d pre = Some (JObj fields) /\
                                json_field k fields = Some v).
  { clear Hkeys. revert d Hd. induction pre as [|p pre IH]; intros d Hd.
    - cbn [app descend] in Hd. destruct d as [| | | | |f0]; try discriminate Hd.
      destruct (json_field k f0) as [w|] eqn:Hk; [|discriminate Hd].
      injection Hd as ->. exists f0. split; [reflexivity | exact Hk].
    - cbn [app descend] in *. destruct d as [| | | | |f0]; try discriminate Hd.
      destruct (json_field p f0) as [w|]; [|discriminate Hd].
      apply IH. exact Hd. }
  destruct Hpre as [fields [Hpre Hk]].
  rewrite (safe_get_loop_descend pre k [] d default fields Hpre).
  cbn [safe_get_loop dict_get]. rewrite Hk.
  cbn [from_option mbind outcome_bind].
  destruct (py_eq v default || negb (hasattr_getitem v)); reflexivity.
Qed.

(** X15: when the dictionaries of a path are there up to a key that is
    missing, [safe_get] of utils.py returns the default, whatever keys
    follow (the default being equal to itself and to no dictionary). *)
Theorem safe_get_missing_key (d : json) (pre : list string) (k : string)
    (post : list string) (fields : list (string * json)) :
  py_eq default default = true ->
  descend d pre = Some (JObj fields) ->
  json_field k fields = None ->
  utils.safe_get py_eq d (pre ++ k :: post) default = Return default.
Proof.
  intros Hrefl Hpre Hk. unfold utils.safe_get.
  rewrite (safe_get_loop_descend pre k post d default fields Hpre).
  cbn [safe_get_loop dict_get]. rewrite Hk.
  cbn [from_option mbind outcome_bind]. rewrite Hrefl. reflexivity.
Qed.

(** X16: with a default that is equal to no dictionary, and the
    dictionaries of a path there up to a key whose value is found,
    [safe_get] of utils.py stops at that value when it is no dictionary:
    a number, a boolean or [None] is returned as the answer and the keys
    that follow are ignored, and so is a value equal to the default; a
    list or a string that is not equal to the default, with keys still
    to follow, makes the call raise [AttributeError]. *)
Theorem safe_get_stops_at_non_dict (d : json) (pre : list string) (k : string)
    (post : list string) (fields : list (string * json)) (v : json) :
  descend d pre = Some (JObj fields) ->
  json_field k fields = Some v ->
  (hasattr_getitem v = false ->
   utils.safe_get py_eq d (pre ++ k :: post) default = Return v) /\
  (py_eq v default = true ->
   utils.safe_get py_eq d (pre ++ k :: post) default = Return v) /\
  (hasattr_getitem v = true -> (forall f, v <> JObj f) ->
   py_eq v default = false -> post <> [] ->
   utils.safe_get py_eq d (pre ++ k :: post) default
   = Fail (AttributeError ("'" +:+ type_name v +:+ "' object has no attribute 'get'"))).
Proof.
  intros Hpre Hk. unfold utils.safe_get.
  rewrite (safe_get_loop_descend pre k post d default fields Hpre).
  cbn [safe_get_loop dict_get]. rewrite Hk.
  cbn [from_option mbind outcome_bind]. split; [|split].
  - intros ->. rewrite orb_true_r. reflexivity.
  - intros ->. reflexivity.
  - intros -> Hnd -> Hpost. cbn [negb orb].
    destruct post as [|q post]; [contradiction|].
    destruct v as [| | | | |f]; try reflexivity.
    exfalso. apply (Hnd f). reflexivity.
Qed.

End safe_get_properties.

Lemma safe_get_finds_nested_witness :
  utils.safe_get json_same sample_track ["performer"; "name"] JNull
  = Return (JStr "Nina").
Proof.
  apply (safe_get_finds_nested json_same JNull (fun _ => eq_refl) sample_track
           ["performer"; "name"] (JStr "Nina")).
  - discriminate.
  - reflexivity.
Defined.

Lemma safe_get_missing_key_witness :
  utils.safe_get json_same sample_track ["performer"; "id"; "x"] JNull
  = Return JNull.
Proof.
  exact (safe_get_missing_key json_same JNull (fun _ => eq_refl) sample_track
           ["performer"] "id" ["x"] [("name", JStr "Nina")]
           eq_refl eq_refl eq_refl).
Defined.

Lemma safe_get_stops_at_non_dict_witness :
  utils.safe_get json_same sample_track ["duration"; "unit"] JNull
  = Return (JNum 215) /\
  utils.safe_get json_same (JObj [("a", JStr "x")]) ["a"; "b"] (JStr "x")
  = Return (JStr "x") /\
  utils.safe_get json_same sample_track ["tags"; "first"] JNull
  = Fail (AttributeError "'list' object has no attribute 'get'").
Proof.
  split; [|split].
  - apply (proj1 (safe_get_stops_at_non_dict json_same JNull (fun _ => eq_refl)
                    sample_track [] "duration" ["unit"] _ (JNum 215)
                    eq_refl eq_refl)).
    reflexivity.
  - apply (proj1 (proj2 (safe_get_stops_at_non_dict json_same (JStr "x")
                           (fun _ => eq_refl) (JObj [("a", JStr "x")]) [] "a" ["b"]
                           _ (JStr "x") eq_refl eq_refl))).
    reflexivity.
  - apply (proj2 (proj2 (safe_get_stops_at_non_dict json_same JNull (fun _ => eq_refl)
                           sample_track [] "tags" ["first"] _ (JArr [JStr "live"])
                           eq_refl eq_refl))); try reflexivity; discriminate.
Defined.

Lemma get_all_descend (d : json) (keys : list string) (v : json) :
  descend d keys = Some v -> metadata.get_all d keys = Return v.
Proof.
  revert d. induction keys as [|k rest IH]; intros d Hd.
  - injection Hd as ->. reflexivity.
  - cbn [descend] in Hd. destruct d as [| | | | |f0]; try discriminate Hd.
    destruct (json_field k f0) as [w|] eqn:Hk; [|discriminate Hd].
    cbn [metadata.get_all dict_get]. rewrite Hk.
    cbn [from_option mbind outcome_bind]. apply IH. exact Hd.
Qed.

Lemma get_all_app (d : json) (pre post : list string) :
  metadata.get_all d (pre ++ post)
  = metadata.get_all d pre ≫= fun v => metadata.get_all v post.
Proof.
  revert d. induction pre as [|k pre IH]; intros d; [reflexivity|].
  cbn [app metadata.get_all].
  destruct (dict_get d k (JObj [])) as [w|e]; cbn [mbind outcome_bind];
    [apply IH | reflexivity].
Qed.

Lemma get_all_of_empty (keys : list string) :
  metadata.get_all (JObj []) keys = Return (JObj []).
Proof.
  induction keys as [|k rest IH]; [reflexivity|].
  cbn [metadata.get_all dict_get json_field fold_left from_option
       mbind outcome_bind]. exact IH.
Qed.

(** X17: [safe_get] of metadata.py returns the value at the end of a
    path whose keys are all present, except that an empty dictionary
    there is answered by the default (also for the empty path); and it
    returns the default when a key is missing at any depth, whatever keys
    follow. *)
Theorem metadata_safe_get_path (d : json) (default : json) :
  (forall keys v,
     descend d keys = Some v ->
     metadata.safe_get d keys default
     = Return (if is_empty_dict v then default else v)) /\
  (forall pre k post fields,
     descend d pre = Some (JObj fields) ->
     json_field k fields = None ->
     metadata.safe_get d (pre ++ k :: post) default = Return default).
Proof.
  split.
  - intros keys v Hd. unfold metadata.safe_get.
    rewrite (get_all_descend d keys v Hd). cbn [mbind outcome_bind].
    destruct (is_empty_dict v); reflexivity.
  - intros pre k post fields Hpre Hk. unfold metadata.safe_get.
    rewrite get_all_app, (get_all_descend d pre _ Hpre).
    cbn [mbind outcome_bind metadata.get_all dict_get]. rewrite Hk.
    cbn [from_option mbind outcome_bind]. rewrite get_all_of_empty.
    reflexivity.
Qed.

Lemma metadata_safe_get_path_witness :
  metadata.safe_get sample_track ["performer"; "name"] JNull = Return (JStr "Nina") /\
  metadata.safe_get sample_track ["composer"; "name"] JNull = Return JNull.
Proof.
  destruct (metadata_safe_get_path sample_track JNull) as [Hfound Hmissing].
  split.
  - exact (Hfound ["performer"; "name"] (JStr "Nina") eq_refl).
  - exact (Hmissing [] "composer" ["name"] _ eq_refl eq_refl).
Defined.

(** X18: [safe_get] of metadata.py raises [AttributeError] as soon as a
    key is to be looked up in a value that is no dictionary, be it a
    list, a string, a number, a boolean or [None]: where the [safe_get]
    of utils.py returns a number found on the way, this one fails. *)
Theorem metadata_safe_get_non_dict (d : json) (pre : list string) (k : string)
    (post : list string) (v default : json) :
  descend d pre = Some v ->
  (forall fields, v <> JObj fields) ->
  metadata.safe_get d (pre ++ k :: post) default
  = Fail (AttributeError ("'" +:+ type_name v +:+ "' object has no attribute 'get'")).
Proof.
  intros Hpre Hnd. unfold metadata.safe_get.
  rewrite get_all_app, (get_all_descend d pre v Hpre).
  cbn [mbind outcome_bind metadata.get_all].
  destruct v as [| | | | |f]; try reflexivity.
  exfalso. apply (Hnd f). reflexivity.
Qed.

Lemma metadata_safe_get_non_dict_witness :
  metadata.safe_get sample_track ["duration"; "unit"] JNull
  = Fail (AttributeError "'int' object has no attribute 'get'").
Proof.
  apply (metadata_safe_get_non_dict sample_track ["duration"] "unit" []
           (JNum 215) JNull).
  - reflexivity.
  - discriminate.
Defined.

(** ** Covers *)

Lemma covers_wf_shape (c : list metadata.CoverEntry) :
  covers_wf c ->
  exists u0 p0 u1 p1 u2 p2 u3 p3,
    c = [ ("original", u0, p0); ("large", u1, p1);
          ("small", u2, p2); ("thumbnail", u3, p3) ].
Proof.
  unfold covers_wf, cover_sizes. intros H.
  destruct c as [|[[s0 u0] p0] [|[[s1 u1] p1] [|[[s2 u2] p2] [|[[s3 u3] p3] [|? ?]]]]];
    try discriminate H.
  cbn in H. injection H as -> -> -> ->.
  exists u0, p0, u1, p1, u2, p2, u3, p3. reflexivity.
Qed.

Lemma first_with_url_spec (l : list metadata.CoverEntry) :
  match metadata.Covers.first_with_url l with
  | Some e => exists pre post, l = pre ++ e :: post /\ Forall no_url pre /\ is_Some e.1.2
  | None => Forall no_url l
  end.
Proof.
  induction l as [|x l IH]; [constructor|].
  cbn [metadata.Covers.first_with_url].
  destruct (x.1.2) as [u|] eqn:Hx.
  - exists [], l. split; [reflexivity|]. split; [constructor | rewrite Hx; eauto].
  - destruct (metadata.Covers.first_with_url l) as [e|].
    + destruct IH as (pre & post & -> & Hpre & He).
      exists (x :: pre), post. split; [reflexivity|]. split; [|exact He].
      constructor; assumption.
    + constructor; assumption.
Qed.

Section covers_properties.
Variable repr_str : string -> string.

Lemma indexof_cases (size : string) :
  (size = "original" /\ metadata.Covers._indexof repr_str size = Return 0%nat) \/
  (size = "large" /\ metadata.Covers._indexof repr_str size = Return 1%nat) \/
  (size = "small" /\ metadata.Covers._indexof repr_str size = Return 2%nat) \/
  (size = "thumbnail" /\ metadata.Covers._indexof repr_str size = Return 3%nat) \/
  ((size ∉ cover_sizes) /\
   metadata.Covers._indexof repr_str size
   = Fail (Std (GenericException ("Invalid size = " +:+ repr_str size)))).
Proof.
  unfold metadata.Covers._indexof.
  destruct (String.eqb_spec size "original") as [-> | H0]; [auto|].
  destruct (String.eqb_spec size "large") as [-> | H1]; [auto|].
  destruct (String.eqb_spec size "small") as [-> | H2]; [auto 6|].
  destruct (String.eqb_spec size "thumbnail") as [-> | H3]; [auto 6|].
  do 4 right. split; [|reflexivity].
  unfold cover_sizes. rewrite !elem_of_cons, elem_of_nil. tauto.
Qed.

(** X19: a [Covers] object keeps one entry per size, in the order
    original, large, small, thumbnail: it is created so, and every
    successful [set_cover], [set_cover_url], [set_path] and
    [set_largest_path] keeps it so. *)
Theorem covers_shape_is_kept :
  covers_wf metadata.Covers.__init__ /\
  forall c, covers_wf c ->
    (forall size url path c',
       metadata.Covers.set_cover repr_str size url path c = Return c' -> covers_wf c') /\
    (forall size url c',
       metadata.Covers.set_cover_url repr_str size url c = Return c' -> covers_wf c') /\
    (forall size path c',
       metadata.Covers.set_path repr_str size path c = Return c' -> covers_wf c') /\
    (forall path c',
       metadata.Covers.set_largest_path repr_str path c = Return c' -> covers_wf c').
Proof.
  split; [reflexivity|]. intros c Hwf.
  destruct (covers_wf_shape c Hwf) as (u0 & p0 & u1 & p1 & u2 & p2 & u3 & p3 & ->).
  assert (Hset : forall size url path c',
            metadata.Covers.set_cover repr_str size url path
              [ ("original", u0, p0); ("large", u1, p1);
                ("small", u2, p2); ("thumbnail", u3, p3) ] = Return c' ->
            covers_wf c').
  { intros size url path c'. unfold metadata.Covers.set_cover.
    destruct (indexof_cases size) as [[-> ->] | [[-> ->] | [[-> ->] | [[-> ->] | [_ ->]]]]];
      cbn; intros H; try discriminate H; injection H as <-; reflexivity. }
  split; [exact Hset|]. split; [intros size url c'; apply Hset|]. split.
  - intros size path c'. unfold metadata.Covers.set_path.
    destruct (indexof_cases size) as [[-> ->] | [[-> ->] | [[-> ->] | [[-> ->] | [_ ->]]]]];
      cbn; intros H; try discriminate H; injection H as <-; reflexivity.
  - intros path c'. unfold metadata.Covers.set_largest_path.
    cbn [metadata.Covers.first_with_url fst snd].
    destruct u0; [apply Hset|]. destruct u1; [apply Hset|].
    destruct u2; [apply Hset|]. destruct u3; [apply Hset|]. discriminate.
Qed.

(** X20: after [set_cover] with a url has succeeded on a well-shaped
    object, [get_size] of the same size returns exactly the entry that
    was set, with the given path ([None] for [set_cover_url], whatever
    path was stored before), and the entries of the other sizes are as
    they were. *)
Theorem set_cover_then_get_size (c c' : list metadata.CoverEntry)
    (size url : string) (path : option string) :
  covers_wf c ->
  metadata.Covers.set_cover repr_str size (Some url) path c = Return c' ->
  metadata.Covers.get_size repr_str size c' = Return (size, Some url, path) /\
  (forall size' i', size' <> size ->
     metadata.Covers._indexof repr_str size' = Return i' -> c' !! i' = c !! i').
Proof.
  intros Hwf.
  destruct (covers_wf_shape c Hwf) as (u0 & p0 & u1 & p1 & u2 & p2 & u3 & p3 & ->).
  unfold metadata.Covers.set_cover, metadata.Covers.get_size.
  destruct (indexof_cases size) as [[-> ->] | [[-> ->] | [[-> ->] | [[-> ->] | [_ ->]]]]];
    cbn; intros H; try discriminate H; injection H as <-;
    (split; [reflexivity|]);
    intros size' i' Hne;
    destruct (indexof_cases size')
      as [[-> ->] | [[-> ->] | [[-> ->] | [[-> ->] | [_ ->]]]]];
    intros Hi; try discriminate Hi; try contradiction;
    injection Hi as <-; reflexivity.
Qed.

(** X21: a size name other than the four is refused by [set_cover],
    [set_path] and [get_size] alike with the exception "Invalid size =
    ...", whatever the object holds. *)
Theorem covers_invalid_size (c : list metadata.CoverEntry) (size : string)
    (url path : option string) (p : string) :
  size ∉ cover_sizes ->
  let invalid := Std (GenericException ("Invalid size = " +:+ repr_str size)) in
  metadata.Covers.set_cover repr_str size url path c = Fail invalid /\
  metadata.Covers.set_path repr_str size p c = Fail invalid /\
  metadata.Covers.get_size repr_str size c = Fail invalid.
Proof.
  intros Hsize invalid.
  unfold metadata.Covers.set_cover, metadata.Covers.set_path,
    metadata.Covers.get_size.
  destruct (indexof_cases size) as [[-> _] | [[-> _] | [[-> _] | [[-> _] | [_ ->]]]]];
    try (exfalso; apply Hsize; unfold cover_sizes;
         rewrite !elem_of_cons; tauto).
  repeat split; reflexivity.
Qed.

(** X22: [largest] returns the first entry that has a url, every entry
    before it having none, and raises exactly when [empty] is true. *)
Theorem largest_is_first_with_url (c : list metadata.CoverEntry) :
  (forall e, metadata.Covers.largest repr_str c = Return e ->
     exists pre post, c = pre ++ e :: post /\ Forall no_url pre /\ is_Some e.1.2) /\
  (metadata.Covers.empty c = true <->
   exists msg, metadata.Covers.largest repr_str c = Fail (Std (GenericException msg))).
Proof.
  unfold metadata.Covers.largest.
  pose proof (first_with_url_spec c) as Hspec.
  assert (Hempty : metadata.Covers.empty c = true <-> Forall no_url c).
  { unfold metadata.Covers.empty. rewrite forallb_forall, Forall_forall.
    split; intros H x Hx.
    - apply list_elem_of_In in Hx. apply H in Hx.
      apply bool_decide_eq_true in Hx. exact Hx.
    - apply bool_decide_eq_true. apply H. apply list_elem_of_In. exact Hx. }
  destruct (metadata.Covers.first_with_url c) as [e|].
  - split.
    + intros e' H. injection H as <-. exact Hspec.
    + rewrite Hempty. split.
      * intros Hall. destruct Hspec as (pre & post & -> & _ & [u Hu]).
        apply Forall_app in Hall as [_ Hall]. apply Forall_cons in Hall as [He _].
        unfold no_url in He. congruence.
      * intros [msg H]. discriminate H.
  - split; [intros e H; discriminate H|].
    rewrite Hempty. split; [intros _; eauto | intros _; exact Hspec].
Qed.

(** On a well-shaped object [get_size] is the search of the first url
    from the entry of the size on. *)
Lemma get_size_search (c : list metadata.CoverEntry) (size : string) (i : nat) :
  covers_wf c ->
  metadata.Covers._indexof repr_str size = Return i ->
  metadata.Covers.get_size repr_str size c
  = match metadata.Covers.first_with_url (drop i c) with
    | Some e => Return e
    | None =>
        Fail (Std (GenericException
                     ("Cover not found for size = " +:+ repr_str size
                      +:+ ". Available: " +:+ metadata.Covers.__repr__ repr_str c)))
    end.
Proof.
  intros Hwf.
  destruct (covers_wf_shape c Hwf) as (u0 & p0 & u1 & p1 & u2 & p2 & u3 & p3 & ->).
  unfold metadata.Covers.get_size.
  destruct (indexof_cases size) as [[-> ->] | [[-> ->] | [[-> ->] | [[-> ->] | [_ ->]]]]];
    intros Hi; try discriminate Hi; injection Hi as <-;
    cbn [mbind outcome_bind metadata.Covers.getitem lookup list_lookup
         drop metadata.Covers.first_with_url fst snd length Nat.add Nat.ltb Nat.leb];
    destruct u0, u1, u2, u3; reflexivity.
Qed.

(** X23: on a well-shaped object [get_size] returns the entry of the
    size asked for when it has a url, and otherwise the next smaller one
    that has; it never answers with a larger cover, and it raises exactly
    when neither that size nor a smaller one has a url. *)
Theorem get_size_falls_back_to_smaller (c : list metadata.CoverEntry)
    (size : string) (i : nat) :
  covers_wf c ->
  metadata.Covers._indexof repr_str size = Return i ->
  (forall e, metadata.Covers.get_size repr_str size c = Return e ->
     exists skipped rest,
       drop i c = skipped ++ e :: rest /\ Forall no_url skipped /\ is_Some e.1.2) /\
  ((exists msg, metadata.Covers.get_size repr_str size c
                = Fail (Std (GenericException msg))) <->
   Forall no_url (drop i c)).
Proof.
  intros Hwf Hi. rewrite (get_size_search c size i Hwf Hi).
  pose proof (first_with_url_spec (drop i c)) as Hspec.
  destruct (metadata.Covers.first_with_url (drop i c)) as [e|].
  - split; [intros e' H; injection H as <-; exact Hspec|].
    split; [intros [msg H]; discriminate H|].
    intros Hall. destruct Hspec as (pre & post & Heq & _ & [u Hu]).
    rewrite Heq in Hall.
    apply Forall_app in Hall as [_ Hall]. apply Forall_cons in Hall as [He _].
    unfold no_url in He. congruence.
  - split; [intros e H; discriminate H|].
    split; [intros _; exact Hspec | intros _; eauto].
Qed.

(** X24: on a well-shaped object [set_largest_path] succeeds exactly when
    some entry has a url; [largest] then returns the same size and url as
    before, with the new path. *)
Theorem set_largest_path_then_largest (c : list metadata.CoverEntry) (path : string) :
  covers_wf c ->
  (forall c', metadata.Covers.set_largest_path repr_str path c = Return c' ->
     exists size url old,
       metadata.Covers.largest repr_str c = Return (size, Some url, old) /\
       metadata.Covers.largest repr_str c' = Return (size, Some url, Some path)) /\
  ((exists c', metadata.Covers.set_largest_path repr_str path c = Return c') <->
   metadata.Covers.empty c = false).
Proof.
  intros Hwf.
  destruct (covers_wf_shape c Hwf) as (u0 & p0 & u1 & p1 & u2 & p2 & u3 & p3 & ->).
  unfold metadata.Covers.set_largest_path, metadata.Covers.largest,
    metadata.Covers.empty.
  destruct u0 as [x0|]; [|destruct u1 as [x1|]; [|destruct u2 as [x2|];
    [|destruct u3 as [x3|]]]]; cbn;
    (split; [intros c' H; try discriminate H; injection H as <-;
             do 3 eexists; split; reflexivity|]);
    (split; [intros [c' H]; try discriminate H; reflexivity
            | intros H; try discriminate H; eexists; reflexivity]).
Qed.

(** X25: on a well-shaped object [set_path] with one of the four sizes
    succeeds, changes the path of that entry only, keeps its url, and so
    leaves [empty] and the size and url of [largest] as they were. *)
Theorem set_path_keeps_urls (c : list metadata.CoverEntry) (size path : string)
    (i : nat) :
  covers_wf c ->
  metadata.Covers._indexof repr_str size = Return i ->
  exists url old,
    c !! i = Some (size, url, old) /\
    metadata.Covers.set_path repr_str size path c
    = Return (<[i := (size, url, Some path)]> c) /\
    map (fun e : metadata.CoverEntry => e.1.2) (<[i := (size, url, Some path)]> c)
    = map (fun e : metadata.CoverEntry => e.1.2) c /\
    metadata.Covers.empty (<[i := (size, url, Some path)]> c) = metadata.Covers.empty c.
Proof.
  intros Hwf.
  destruct (covers_wf_shape c Hwf) as (u0 & p0 & u1 & p1 & u2 & p2 & u3 & p3 & ->).
  unfold metadata.Covers.set_path.
  destruct (indexof_cases size) as [[-> ->] | [[-> ->] | [[-> ->] | [[-> ->] | [_ ->]]]]];
    intros Hi; try discriminate Hi; injection Hi as <-;
    do 2 eexists; (split; [reflexivity|]); repeat split; reflexivity.
Qed.

End covers_properties.

Lemma set_cover_then_get_size_witness :
  metadata.Covers.get_size quoted "small"
    (<[2%nat := ("small", Some "https://static.example.com/230.jpg", None)]>
       sample_covers)
  = Return ("small", Some "https://static.example.com/230.jpg", None).
Proof.
  exact (proj1 (set_cover_then_get_size quoted sample_covers _ "small"
                  "https://static.example.com/230.jpg" None eq_refl eq_refl)).
Defined.

Lemma covers_invalid_size_witness :
  metadata.Covers.get_size quoted "huge" sample_covers
  = Fail (Std (GenericException "Invalid size = 'huge'")).
Proof.
  refine (proj2 (proj2 (covers_invalid_size quoted sample_covers "huge"
                          None None "/tmp/x.jpg" _))).
  unfold cover_sizes. rewrite !elem_of_cons, elem_of_nil.
  intros [H | [H | [H | [H | []]]]]; discriminate H.
Defined.

Lemma get_size_falls_back_to_smaller_witness :
  metadata.Covers.get_size quoted "small" sample_covers
  = Return ("thumbnail", Some "https://static.example.com/50.jpg", None) /\
  exists msg, metadata.Covers.get_size quoted "small"
                (<[3%nat := ("thumbnail", None, None)]> sample_covers)
              = Fail (Std (GenericException msg)).
Proof.
  split; [reflexivity|].
  refine (proj2 (proj2 (get_size_falls_back_to_smaller quoted
                          (<[3%nat := ("thumbnail", None, None)]> sample_covers)
                          "small" 2 _ _)) _).
  - reflexivity.
  - reflexivity.
  - repeat constructor.
Defined.

Lemma set_largest_path_then_largest_witness :
  exists c', metadata.Covers.set_largest_path quoted "/tmp/new.jpg" sample_covers
             = Return c'.
Proof.
  apply (proj2 (set_largest_path_then_largest quoted sample_covers "/tmp/new.jpg"
                  eq_refl)).
  reflexivity.
Defined.

Lemma set_path_keeps_urls_witness :
  exists url old,
    sample_covers !! 3%nat = Some ("thumbnail", url, old) /\
    metadata.Covers.set_path quoted "thumbnail" "/tmp/t.jpg" sample_covers
    = Return (<[3%nat := ("thumbnail", url, Some "/tmp/t.jpg")]> sample_covers).
Proof.
  destruct (set_path_keeps_urls quoted sample_covers "thumbnail" "/tmp/t.jpg" 3
              eq_refl eq_refl) as (url & old & Hget & Hset & _).
  exists url, old. split; assumption.
Defined.

(** ** Track ids of an album *)

Lemma map_result_Forall2 {A B} (f : A -> result B) (l : list A) (ys : list B) :
  map_result f l = Ok ys -> Forall2 (fun x y => f x = Ok y) l ys.
Proof.
  revert ys. induction l as [|x l IH]; intros ys H.
  - injection H as <-. constructor.
  - cbn [map_result] in H. destruct (f x) as [y|e] eqn:Hx; [|discriminate H].
    cbn [mbind result_bind] in H.
    destruct (map_result f l) as [ys'|e]; [|discriminate H].
    injection H as <-. constructor; [exact Hx | apply IH; reflexivity].
Qed.

Lemma dict_keys_head (k : string) (v : json) (fields : list (string * json)) :
  exists rest, dict_keys ((k, v) :: fields) = k :: rest.
Proof.
  unfold dict_keys. cbn [map fst fold_left].
  assert (H : forall ks acc,
            exists rest,
              fold_left (fun acc k0 => if bool_decide (k0 ∈ acc) then acc
                                       else acc ++ [k0]) ks (k :: acc)
              = k :: rest).
  { induction ks as [|k0 ks IH]; intros acc; [eauto|].
    cbn [fold_left]. destruct (bool_decide (k0 ∈ k :: acc)); [apply IH|].
    apply (IH (acc ++ [k0])). }
  rewrite bool_decide_eq_false_2 by apply not_elem_of_nil.
  apply (H (map fst fields) []).
Qed.

(** X26: when the track list of a response is a list,
    [get_album_track_ids] returns the "id" entries of its tracks, one per
    track and in the order of the tracks; the list is taken under
    "tracks" and, for qobuz only, under "items" below it. *)
Theorem get_album_track_ids_in_order (source : string) (resp tracks : json)
    (items ids : list json) :
  json_subscript resp "tracks" = Ok tracks ->
  (if String.eqb source "qobuz" then json_subscript tracks "items" else Ok tracks)
  = Ok (JArr items) ->
  metadata.get_album_track_ids source resp = Ok ids ->
  Forall2 (fun track id => json_subscript track "id" = Ok id) items ids.
Proof.
  intros Htracks Hlist. unfold metadata.get_album_track_ids.
  rewrite Htracks. cbn [mbind result_bind]. rewrite Hlist.
  cbn [mbind result_bind py_iter]. apply map_result_Forall2.
Qed.

Lemma get_album_track_ids_in_order_witness :
  Forall2 (fun track id => json_subscript track "id" = Ok id)
    [ JObj [("id", JNum 11); ("title", JStr "A")];
      JObj [("id", JNum 12); ("title", JStr "B")] ]
    [ JNum 11; JNum 12 ].
Proof.
  exact (get_album_track_ids_in_order "qobuz" sample_album _ _ _
           eq_refl eq_refl eq_refl).
Defined.

(** X27: when the value under "tracks" is a non-empty dictionary and the
    source is not qobuz, [get_album_track_ids] raises [TypeError]: the
    loop runs over the keys of the dictionary, and a key has no "id". *)
Theorem get_album_track_ids_over_dict (source : string) (resp : json)
    (fields : list (string * json)) :
  source <> "qobuz" ->
  json_subscript resp "tracks" = Ok (JObj fields) ->
  fields <> [] ->
  exists msg, metadata.get_album_track_ids source resp = Raise (TypeError msg).
Proof.
  intros Hsource Htracks Hfields. unfold metadata.get_album_track_ids.
  rewrite Htracks. cbn [mbind result_bind].
  destruct (String.eqb_spec source "qobuz") as [Heq | _]; [contradiction|].
  cbn [mbind result_bind py_iter].
  destruct fields as [|[k v] fields]; [contradiction|].
  destruct (dict_keys_head k v fields) as [rest ->].
  cbn [map map_result json_subscript mbind result_bind]. eauto.
Qed.

Lemma get_album_track_ids_over_dict_witness :
  exists msg, metadata.get_album_track_ids "tidal" sample_album = Raise (TypeError msg).
Proof.
  apply (get_album_track_ids_over_dict "tidal" sample_album
           [("items", JArr [ JObj [("id", JNum 11); ("title", JStr "A")];
                             JObj [("id", JNum 12); ("title", JStr "B")] ])]).
  - discriminate.
  - reflexivity.
  - discriminate.
Defined.

Lemma stream_progress_completes_witness :
  (tqdm_stream toy_block media_stream).2 = (7000, 7000).
Proof.
  destruct (stream_progress_completes toy_block (fun _ _ H => H)
              (session_of media_response) "https://www.deezer.com/track/3135556"
              (Some "deezer") [] [] (IdInt 3135556) media_stream)
    as (Hbar & _ & _).
  - reflexivity.
  - reflexivity.
  - vm_compute. reflexivity.
  - discriminate.
  - rewrite Hbar. vm_compute. reflexivity.
Defined.

Section covers_composition.
Variable repr_str : string -> string.

(** X29: on a well-shaped object [get_size] of "original" and [largest]
    answer alike: the same entry, or both an exception. *)
Theorem get_size_original_is_largest (c : list metadata.CoverEntry) :
  covers_wf c ->
  (forall e, metadata.Covers.get_size repr_str "original" c = Return e <->
             metadata.Covers.largest repr_str c = Return e) /\
  ((exists msg, metadata.Covers.get_size repr_str "original" c
                = Fail (Std (GenericException msg))) <->
   (exists msg, metadata.Covers.largest repr_str c
                = Fail (Std (GenericException msg)))).
Proof.
  intros Hwf.
  rewrite (get_size_search repr_str c "original" 0 Hwf eq_refl).
  unfold metadata.Covers.largest. rewrite drop_0.
  destruct (metadata.Covers.first_with_url c) as [e|].
  - split; [intros e'; reflexivity|].
    split; intros [msg H]; discriminate H.
  - split; [intros e; split; discriminate|].
    split; intros _; eauto.
Qed.

End covers_composition.

Lemma get_size_original_is_largest_witness :
  metadata.Covers.get_size quoted "original" sample_covers
  = Return ("large", Some "https://static.example.com/600.jpg", Some "/tmp/cover.jpg").
Proof.
  apply (proj1 (get_size_original_is_largest quoted sample_covers eq_refl)).
  reflexivity.
Defined.
